(** * optimizador_mapas: the adaptive compressor, the horizontal tiler and
    the two HTTP handlers of [app.py], embedded and verified.

    Python values are modelled as follows.
    - [int] is [Z]; [float] is an IEEE 754 binary64 value, a [spec_float]
      of the Standard Library used at precision 53 and exponent bound 1024,
      so that [resize_factor -= 0.05] rounds exactly as CPython rounds it.
    - Exceptions are the [Raise] branch of [result]; a [try/except] is a
      match on it.
    - A PIL image is a record of its size, mode and EXIF reader; its pixel
      data is the symbolic history of the library calls that produced it.
      [rotate], [convert], [resize] and [save] are total.
    - The byte size of an encoded JPEG, the byte size of a written PDF and
      the C library's [pow] are the fields of the class [Platform]: they
      are what the program asks of Pillow, PyPDF2 and libm, and nothing is
      assumed about them.
    - A numpy array is a view: a buffer, the rows of it that are shown,
      and a width.
    - A Python [set] of names is a [gset string]. The object storage is an
      association list in listing order. A download fails when its local
      path is a directory or the object is missing. The tracker object is
      its text, read and written as lines 118 and 125 do, together with
      the exception that reading or writing it raises, if any. Uploads
      of documents do not fail.
    - The [while True] loop takes fuel; twelve iterations are shown to be
      enough from the initial parameters. *)

From Stdlib Require Import ZArith List Bool Lia String Ascii.
From Stdlib Require Import Floats.SpecFloat.
From stdpp Require Import base decidable option gmap sets strings sorting.
Import ListNotations.

Local Open Scope Z_scope.

(** ** Exceptions and results *)

Inductive exn : Type :=
  | ValueError (msg : string)
  | ZeroDivisionError
  | OverflowError
  | IndexError
  | AttributeError
  | UnidentifiedImageError
  | PDFPageCountError
  | CvError
  | NotFound
  | Forbidden
  | IsADirectoryError.

Inductive result (A : Type) : Type :=
  | Ok (a : A)
  | Raise (e : exn).

Arguments Ok {A} a.
Arguments Raise {A} e.

#[global] Instance result_ret : MRet result := fun A a => Ok a.

#[global] Instance result_bind : MBind result := fun A B k r =>
  match r with
  | Ok a => k a
  | Raise e => Raise e
  end.

(** ** Python floats *)

Module Float.

Definition prec : Z := 53.
Definition emax : Z := 1024.

Definition float : Type := spec_float.

Definition is_finite (x : float) : bool :=
  match x with
  | S754_zero _ | S754_finite _ _ _ => true
  | S754_infinity _ | S754_nan => false
  end.

(** [float(n)] for a Python int: the nearest double, ties to even;
    an int beyond the double range raises [OverflowError]. *)
Definition of_int (n : Z) : result float :=
  let x := binary_normalize prec emax n 0 false in
  if is_finite x then Ok x else Raise OverflowError.

Definition sub (x y : float) : float := SFsub prec emax x y.
Definition mul (x y : float) : float := SFmul prec emax x y.
Definition div (x y : float) : float := SFdiv prec emax x y.
Definition sqrt (x : float) : float := SFsqrt prec emax x.
Definition ltb (x y : float) : bool := SFltb x y.
Definition leb (x y : float) : bool := SFleb x y.

Definition is_zero (x : float) : bool :=
  match x with S754_zero _ => true | _ => false end.

(** [int * float]: the int is converted first. *)
Definition int_mul (n : Z) (x : float) : result float :=
  y ← of_int n; Ok (mul y x).

(** [a / b] on two Python ints: the exact quotient rounded once to the
    nearest double. The integers are taken as mantissas at exponent 0,
    whatever their size, so no rounding happens before the division. *)
Definition exact (n : Z) : float :=
  match n with
  | Z0 => S754_zero false
  | Zpos p => S754_finite false p 0
  | Zneg p => S754_finite true p 0
  end.

Definition int_truediv (a b : Z) : result float :=
  if b =? 0 then Raise ZeroDivisionError
  else
    let x := div (exact a) (exact b) in
    if is_finite x then Ok x else Raise OverflowError.

(** [int / float] *)
Definition int_div (n : Z) (x : float) : result float :=
  y ← of_int n;
  if is_zero x then Raise ZeroDivisionError else Ok (div y x).

(** [int(x)]: truncation toward zero; [nan] raises [ValueError] and an
    infinity raises [OverflowError]. *)
Definition to_int (x : float) : result Z :=
  match x with
  | S754_zero _ => Ok 0
  | S754_finite s m e =>
      let a := match e with
               | Z0 => Zpos m
               | Zpos k => Z.shiftl (Zpos m) (Zpos k)
               | Zneg k => Z.shiftr (Zpos m) (Zpos k)
               end in
      Ok (if s then - a else a)
  | S754_infinity _ => Raise OverflowError
  | S754_nan => Raise (ValueError "cannot convert float NaN to integer")
  end.

(** The literals of the source, as the doubles CPython reads them. *)
Definition one : float := S754_finite false 4503599627370496 (-52).
Definition half : float := S754_finite false 4503599627370496 (-53).
(** 0.05 = 0x1.999999999999ap-5 *)
Definition five_hundredths : float := S754_finite false 7205759403792794 (-57).
Definition twenty : float := S754_finite false 5629499534213120 (-48).

(** A finite double as a fraction over a power of two. *)
Definition num (x : float) : Z :=
  match x with
  | S754_finite s m e => (if s then Zneg m else Zpos m) * 2 ^ Z.max e 0
  | _ => 0
  end.

Definition den (x : float) : Z :=
  match x with
  | S754_finite _ _ e => 2 ^ Z.max (- e) 0
  | _ => 1
  end.

End Float.

Abbreviation float := Float.float.


(** ** Configuration ([app.py], lines 16-25) *)

Definition TARGET_DPI : Z := 80.
Definition MAX_FILE_SIZE : Z := 31457280.
Definition DEFAULT_TRACKER_BUCKET_NAME : string := "migracion-davincci".
Definition TRACKER_FILE : string := "lista_procesados_completos_mapas.txt".

(** ** PIL images *)

(** A value stored under an EXIF tag: an int, or anything that compares
    unequal to every int (bytes, a tuple, a string). *)
Inductive exif_value : Type :=
  | ExifInt (n : Z)
  | ExifOther.

(** What [img._getexif()] does: it raises (no such method for the format,
    or a segment that does not parse), returns [None], or returns a dict. *)
Inductive exif_reader : Type :=
  | ExifRaises
  | ExifNone
  | ExifDict (d : gmap Z exif_value).

(** Pixel data, as the history of the calls that produced it. *)
Inductive pixels : Type :=
  | Decoded (id : Z)
  | Rotated (degrees : Z) (p : pixels)
  | Converted (to : string) (p : pixels)
  | Resized (w h : Z) (p : pixels)
  | JpegDecoded (quality : Z) (p : pixels)
  | Strip (rows : list Z) (p : pixels).

Record Image : Type := mkImage {
  width : Z;
  height : Z;
  mode : string;
  getexif : exif_reader;
  data : pixels
}.

(** [img.rotate(degrees, expand=True)] for a multiple of 90 degrees, the
    only angles the program passes: a quarter turn swaps the sides. The new
    object is a plain image, with no EXIF reader. *)
Definition rotate (degrees : Z) (img : Image) : Image :=
  let quarter := (degrees mod 180 =? 90) in
  {| width := if quarter then height img else width img;
     height := if quarter then width img else height img;
     mode := mode img;
     getexif := ExifRaises;
     data := Rotated degrees (data img) |}.

(** [img.convert(m)] *)
Definition convert (m : string) (img : Image) : Image :=
  {| width := width img;
     height := height img;
     mode := m;
     getexif := ExifRaises;
     data := Converted m (data img) |}.

(** [img.resize((w, h), Resampling.LANCZOS)] *)
Definition resize (w h : Z) (img : Image) : Image :=
  {| width := w;
     height := h;
     mode := mode img;
     getexif := ExifRaises;
     data := Resized w h (data img) |}.

(** A JPEG file on disk: what was encoded, with which options, and the
    number of bytes [os.path.getsize] reports for it. *)
Record JpegFile : Type := mkJpeg {
  jpeg_image : Image;
  jpeg_quality : Z;
  jpeg_dpi : option (Z * Z);
  jpeg_optimize : bool;
  jpeg_bytes : Z
}.

(** What the program takes from its platform: the length of the JPEG
    stream Pillow writes for an image at a quality, with or without
    [optimize], the length of the PDF it writes for a list of pages, and
    libm's [pow]. *)
Class Platform : Type := {
  jpeg_size : Image -> Z -> bool -> Z;
  pdf_size : list Image -> Z;
  libm_pow : float -> float -> float
}.

(** ** [correct_image_orientation] (lines 31-47) *)

(** Pillow's [ExifTags.TAGS] from its first key up to the entries around
    the one the loop stops at, in the order the keys iterate. *)
Definition TAGS : list (Z * string) :=
  [ (11, "ProcessingSoftware"); (254, "NewSubfileType"); (255, "SubfileType");
    (256, "ImageWidth"); (257, "ImageLength"); (258, "BitsPerSample");
    (259, "Compression"); (262, "PhotometricInterpretation");
    (263, "Thresholding"); (264, "CellWidth"); (265, "CellLength");
    (266, "FillOrder"); (269, "DocumentName"); (270, "ImageDescription");
    (271, "Make"); (272, "Model"); (273, "StripOffsets");
    (274, "Orientation"); (277, "SamplesPerPixel"); (278, "RowsPerStrip") ].

(** The [for ... break] of lines 33-35: the value bound to the loop
    variable when the loop is left, if any was bound. *)
Fixpoint orientation_key (tags : list (Z * string)) (bound : option Z)
  : option Z :=
  match tags with
  | [] => bound
  | (k, name) :: rest =>
      if String.eqb name "Orientation" then Some k
      else orientation_key rest (Some k)
  end.

Inductive rotation : Type :=
  | NoRotation
  | Rotate (degrees : Z).

(** The [if/elif] chain of lines 39-44 on [exif.get(orientation, None)]. *)
Definition rotation_for (orientation_value : option exif_value) : rotation :=
  match orientation_value with
  | Some (ExifInt 3) => Rotate 180
  | Some (ExifInt 6) => Rotate 270
  | Some (ExifInt 8) => Rotate 90
  | _ => NoRotation
  end.

Definition apply_rotation (r : rotation) (img : Image) : Image :=
  match r with
  | NoRotation => img
  | Rotate d => rotate d img
  end.

(** The body of the [try]: any exception leaves [img] as it was. *)
Definition correct_image_orientation (img : Image) : Image :=
  match orientation_key TAGS None with
  | None => img
  | Some orientation =>
      match getexif img with
      | ExifRaises => img
      | ExifNone => img
      | ExifDict exif =>
          if bool_decide (exif = ∅) then img
          else apply_rotation (rotation_for (exif !! orientation)) img
      end
  end.

(** A file of the working directory: its byte size and what a decoder
    finds in it. *)
Inductive content : Type :=
  | Raster (img : Image)
  | Pdf (pages : list Image)
  | Unreadable.

Record File : Type := mkFile {
  file_size : Z;
  file_body : content
}.

(** [Image.open(path)] *)
Definition image_open (f : File) : result Image :=
  match file_body f with
  | Raster img => Ok img
  | Pdf _ | Unreadable => Raise UnidentifiedImageError
  end.

(** One pass of the loop body up to the save: the parameters in force
    and the file saved over the temporary path. *)
Record Attempt : Type := mkAttempt {
  at_quality : Z;
  at_resize : float;
  at_file : JpegFile
}.

(** ** [compress_image_adaptively] (lines 49-83) *)

Section Compressor.

Context `{Platform}.

(** [img.save(path, format="JPEG", dpi=..., quality=..., optimize=...)] *)
Definition save_jpeg (img : Image) (quality : Z) (dpi : option (Z * Z))
    (optimize : bool) : JpegFile :=
  {| jpeg_image := img;
     jpeg_quality := quality;
     jpeg_dpi := dpi;
     jpeg_optimize := optimize;
     jpeg_bytes := jpeg_size img quality optimize |}.

(** [int(n * factor)] *)
Definition scaled (n : Z) (factor : float) : result Z :=
  x ← Float.int_mul n factor; Float.to_int x.

(** Lines 56-61. [current_megapixels > 20] compares a float with an int,
    exactly; 20 is a double. *)
Definition predownscale (original_size : Z) (img : Image) : result Image :=
  current_megapixels ← Float.int_truediv (width img * height img) 1000000;
  if (original_size >? MAX_FILE_SIZE)
     && Float.ltb Float.twenty current_megapixels
  then
    ratio ← Float.int_div 20 current_megapixels;
    let downscale_factor := libm_pow ratio Float.half in
    new_width ← scaled (width img) downscale_factor;
    new_height ← scaled (height img) downscale_factor;
    Ok (resize new_width new_height img)
  else Ok img.

Definition min_quality : Z := 90.
Definition min_resize : float := Float.half.

(** Lines 72-73: one candidate, saved over the temporary file. *)
Definition candidate (img : Image) (quality : Z) (resize_factor : float)
  : result JpegFile :=
  w ← scaled (width img) resize_factor;
  h ← scaled (height img) resize_factor;
  Ok (save_jpeg (resize w h img) quality (Some (TARGET_DPI, TARGET_DPI)) true).

(** The exception of line 81. *)
Definition budget_unreachable : exn :=
  ValueError "No se pudo reducir el archivo sin comprometer la calidad.".

(** Lines 76-81: the next parameters, or the [ValueError]. *)
Definition next_params (quality : Z) (resize_factor : float)
  : result (Z * float) :=
  if quality >? min_quality then Ok (quality - 5, resize_factor)
  else if Float.ltb min_resize resize_factor
  then Ok (quality, Float.sub resize_factor Float.five_hundredths)
  else Raise budget_unreachable.

(** The [while True] of lines 71-81. The first component lists the
    saves over the temporary path, oldest first; the second is the file
    left there when the loop breaks, or the exception. [None]: the loop
    has not finished within [fuel] iterations. *)
Fixpoint search (fuel : nat) (img : Image) (quality : Z)
    (resize_factor : float) : option (list Attempt * result JpegFile) :=
  match fuel with
  | O => None
  | S fuel' =>
      match candidate img quality resize_factor with
      | Raise e => Some ([], Raise e)
      | Ok temp =>
          let this := mkAttempt quality resize_factor temp in
          if jpeg_bytes temp <=? MAX_FILE_SIZE then Some ([this], Ok temp)
          else
            match next_params quality resize_factor with
            | Raise e => Some ([this], Raise e)
            | Ok (quality', resize_factor') =>
                match search fuel' img quality' resize_factor' with
                | None => None
                | Some (saved, r) => Some (this :: saved, r)
                end
            end
      end
  end.

(** Lines 53-54. *)
Definition to_rgb (img : Image) : Image :=
  if bool_decide (mode img = "RGB") then img else convert "RGB" img.

(** Lines 50-61: everything before the loop. *)
Definition prepare (input : File) : result Image :=
  let original_size := file_size input in
  img ← image_open input;
  predownscale original_size (to_rgb (correct_image_orientation img)).

(** The whole function: the saves over the temporary path and the file
    copied to [output_path], or the exception. *)
Definition compress_image_adaptively (fuel : nat) (input : File)
  : option (list Attempt * result JpegFile) :=
  match prepare input with
  | Raise e => Some ([], Raise e)
  | Ok img => search fuel img 95 Float.one
  end.

(** *** The fixed schedule of the search *)

(** The parameters the loop goes through when no candidate fits. *)
Fixpoint schedule (fuel : nat) (quality : Z) (resize_factor : float)
  : list (Z * float) :=
  match fuel with
  | O => []
  | S fuel' =>
      (quality, resize_factor) ::
      match next_params quality resize_factor with
      | Raise _ => []
      | Ok (quality', resize_factor') => schedule fuel' quality' resize_factor'
      end
  end.

(** The schedule is exhausted within [fuel] steps. *)
Fixpoint exhausted (fuel : nat) (quality : Z) (resize_factor : float) : bool :=
  match fuel with
  | O => false
  | S fuel' =>
      match next_params quality resize_factor with
      | Raise _ => true
      | Ok (quality', resize_factor') => exhausted fuel' quality' resize_factor'
      end
  end.

(** The first fit along a list of parameters. *)
Fixpoint first_fit (img : Image) (params : list (Z * float))
  : list Attempt * result JpegFile :=
  match params with
  | [] => ([], Raise budget_unreachable)
  | (quality, resize_factor) :: rest =>
      match candidate img quality resize_factor with
      | Raise e => ([], Raise e)
      | Ok temp =>
          let this := mkAttempt quality resize_factor temp in
          if jpeg_bytes temp <=? MAX_FILE_SIZE then ([this], Ok temp)
          else let '(saved, r) := first_fit img rest in (this :: saved, r)
      end
  end.

Definition attempt_params (a : Attempt) : Z * float :=
  (at_quality a, at_resize a).

(** No later entry exceeds an earlier one, in either parameter. *)
Fixpoint never_increases (l : list (Z * float)) : bool :=
  match l with
  | [] => true
  | a :: rest =>
      forallb (fun b => (fst b <=? fst a) && Float.leb (snd b) (snd a)) rest
      && never_increases rest
  end.

End Compressor.


(** ** [split_image_horizontally] (lines 89-99) *)

(** A numpy array of shape (rows, width, 3), or a view on one: the buffer
    it looks into, the rows of the buffer it shows, and its second axis. *)
Record Array : Type := mkArray {
  arr_base : pixels;
  arr_rows : list Z;
  arr_width : Z
}.

Definition shape0 (a : Array) : Z := Z.of_nat (length (arr_rows a)).

(** A slice bound on an axis of length [n]: a negative bound counts from
    the end, and every bound is clipped to the axis. *)
Definition slice_bound (n i : Z) : Z :=
  if i <? 0 then Z.max 0 (i + n) else Z.min i n.

(** [l[a:b]] *)
Definition slice {A : Type} (l : list A) (a b : Z) : list A :=
  let n := Z.of_nat (length l) in
  let lo := slice_bound n a in
  let hi := slice_bound n b in
  firstn (Z.to_nat (hi - lo)) (skipn (Z.to_nat lo) l).

(** [img[y1:y2, :]]: a view on the same buffer. *)
Definition rows_view (img : Array) (y1 y2 : Z) : Array :=
  {| arr_base := arr_base img;
     arr_rows := slice (arr_rows img) y1 y2;
     arr_width := arr_width img |}.

(** [range(n)] *)
Definition range (n : Z) : list Z :=
  map Z.of_nat (seq 0 (Z.to_nat n)).

(** The row interval of tile [i] (lines 95-96). *)
Definition tile_bounds (h parts tile_height i : Z) : Z * Z :=
  let y1 := i * tile_height in
  let y2 := if i =? parts - 1 then h else (i + 1) * tile_height in
  (y1, y2).

(** [image] is what [cv2.imread] returned; [None.shape] raises. *)
Definition split_image_horizontally (image : option Array) (parts : Z)
  : result (list Array) :=
  match image with
  | None => Raise AttributeError
  | Some img =>
      let h := shape0 img in
      let w := arr_width img in
      if parts =? 0 then Raise ZeroDivisionError
      else
        let tile_height := h / parts in
        Ok (map (fun i =>
                   let '(y1, y2) := tile_bounds h parts tile_height i in
                   rows_view img y1 y2)
                (range parts))
  end.

(** ** Strings and paths *)

Local Open Scope string_scope.

(** [s.rfind(c)] *)
Fixpoint rfind_from (c : ascii) (s : string) (i : nat) (found : option nat)
  : option nat :=
  match s with
  | EmptyString => found
  | String a rest =>
      rfind_from c rest (S i) (if Ascii.eqb a c then Some i else found)
  end.

Definition rfind (c : ascii) (s : string) : option nat := rfind_from c s 0 None.

Definition tail_from (i : nat) (s : string) : string :=
  String.substring i (String.length s - i) s.

(** [s.replace(pat, "")] for a non-empty [pat]: the occurrences are
    removed from left to right, without overlap. [skip] counts the
    characters of the current occurrence still to drop. *)
Fixpoint remove_all (pat s : string) (skip : nat) : string :=
  match s with
  | EmptyString => EmptyString
  | String a rest =>
      match skip with
      | S k => remove_all pat rest k
      | O =>
          if String.prefix pat s
          then remove_all pat rest (String.length pat - 1)
          else String a (remove_all pat rest 0)
      end
  end.

(** [s.split(c, 1)] *)
Definition split_once (c : ascii) (s : string) : list string :=
  match String.index 0 (String c EmptyString) s with
  | Some i => [String.substring 0 i s; tail_from (S i) s]
  | None => [s]
  end.

(** [name, prefix = uri.replace("gs://", "").split("/", 1)]: unpacking
    anything but two parts raises [ValueError]. *)
Definition bucket_and_prefix (uri : string) : result (string * string) :=
  match split_once "/" (remove_all "gs://" uri 0) with
  | [name; prefix] => Ok (name, prefix)
  | _ => Raise (ValueError "not enough values to unpack (expected 2, got 1)")
  end.

(** [os.path.basename] *)
Definition basename (path : string) : string :=
  match rfind "/" path with
  | Some i => tail_from (S i) path
  | None => path
  end.

Fixpoint all_dots (s : string) : bool :=
  match s with
  | EmptyString => true
  | String a rest => Ascii.eqb a "." && all_dots rest
  end.

(** [os.path.splitext(base)[1]] for a name without a slash: from the last
    dot on, unless only dots come before it. *)
Definition splitext_ext (base : string) : string :=
  match rfind "." base with
  | None => ""
  | Some d =>
      if all_dots (String.substring 0 d base) then "" else tail_from d base
  end.

(** [s.rsplit('.', 1)[0]] *)
Definition rsplit_dot_head (s : string) : string :=
  match rfind "." s with
  | Some i => String.substring 0 i s
  | None => s
  end.

(** [s.lower()] on the ASCII letters; no other character lowers to a
    character of the extensions dispatched on. *)
Definition lower_ascii (c : ascii) : ascii :=
  let n := nat_of_ascii c in
  if ((65 <=? n) && (n <=? 90))%nat then ascii_of_nat (n + 32) else c.

Fixpoint lower (s : string) : string :=
  match s with
  | EmptyString => EmptyString
  | String a rest => String (lower_ascii a) (lower rest)
  end.

Fixpoint endswith_char (c : ascii) (s : string) : bool :=
  match s with
  | EmptyString => false
  | String a EmptyString => Ascii.eqb a c
  | String _ rest => endswith_char c rest
  end.

(** [os.path.join(a, b)] *)
Definition path_join (a b : string) : string :=
  if String.prefix "/" b then b
  else if String.eqb a "" || endswith_char "/" a then a ++ b
  else a ++ "/" ++ b.


Local Open Scope Z_scope.

(** ** The tracker file as text

    The tracker object is text, one name per line. The definitions below
    are the two conversions of lines 118 and 125. Characters are the code
    points below 256. *)
Definition code (c : ascii) : Z := Z.of_N (N_of_ascii c).

(** The line boundaries of [str.splitlines] among these code points:
    LF, VT, FF, CR, FS, GS, RS and NEL. *)
Definition is_linebreak (c : ascii) : bool :=
  ((10 <=? code c) && (code c <=? 13))
  || ((28 <=? code c) && (code c <=? 30))
  || (code c =? 133).

(** The characters [str.strip] removes: those of [str.isspace]. *)
Definition is_space (c : ascii) : bool :=
  ((9 <=? code c) && (code c <=? 13))
  || ((28 <=? code c) && (code c <=? 32))
  || (code c =? 133) || (code c =? 160).

(** [str.splitlines()]: [cur] is the line read so far. CR LF is one
    boundary, and no empty line is produced after the last boundary. *)
Fixpoint splitlines_from (cur : string) (s : string) : list string :=
  match s with
  | EmptyString => if String.eqb cur "" then [] else [cur]
  | String c rest =>
      if is_linebreak c then
        cur :: match rest with
               | String c' rest' =>
                   if (code c =? 13) && (code c' =? 10)
                   then splitlines_from "" rest'
                   else splitlines_from "" rest
               | EmptyString => splitlines_from "" rest
               end
      else splitlines_from (cur ++ String c "") rest
  end.

Definition splitlines (s : string) : list string := splitlines_from "" s.

Fixpoint lstrip (s : string) : string :=
  match s with
  | String c rest => if is_space c then lstrip rest else s
  | EmptyString => ""
  end.

Fixpoint rstrip (s : string) : string :=
  match s with
  | String c rest =>
      match rstrip rest with
      | EmptyString => if is_space c then "" else String c ""
      | kept => String c kept
      end
  | EmptyString => ""
  end.

Definition strip (s : string) : string := rstrip (lstrip s).

(** [sorted(names)], on the elements of the set. *)
Definition sorted (names : list string) : list string :=
  merge_sort (fun a b => Is_true (String.leb a b)) names.

Definition newline : string := String "010" "".

(** Line 125: the text [update_tracker] uploads for the set [all_files],
    its names sorted and joined by newlines. *)
Definition tracker_text (all_files : gset string) : string :=
  String.concat newline (sorted (elements all_files)).

(** Line 118: the set [load_tracker] returns for the text of the file. *)
Definition tracker_names (text : string) : gset string :=
  list_to_set (splitlines (strip text)).

(** A name the text form keeps: not empty, without line boundary, and
    without white space at either end. *)
Fixpoint no_linebreak (s : string) : bool :=
  match s with
  | String c rest => negb (is_linebreak c) && no_linebreak rest
  | EmptyString => true
  end.

Definition first_is_space (s : string) : bool :=
  match s with String c _ => is_space c | EmptyString => false end.

Fixpoint last_is_space (s : string) : bool :=
  match s with
  | String c EmptyString => is_space c
  | String _ rest => last_is_space rest
  | EmptyString => false
  end.

Definition clean_name (s : string) : bool :=
  negb (String.eqb s "") && no_linebreak s
  && negb (first_is_space s) && negb (last_is_space s).

(** ** The collaborators: object storage, tracker, task queue *)

Record Task : Type := mkTask {
  task_input_bucket : string;
  task_output_bucket : string;
  task_file_path : string;
  task_horizontal_parts : Z
}.

(** What an invocation does to the outside, in order. *)
Inductive Event : Type :=
  | Listed (bucket prefix : string)
  | Downloaded (bucket name : string)
  | Uploaded (bucket name : string)
  | TrackerRead
  | TrackerWritten
  | TaskCreated (t : Task).

(** The tracker object as the storage client finds it: its text ([None]:
    no such object yet), and the exception that a read of it and a write
    of it raise, if any (the bucket is gone, the account may not read or
    write it). *)
Record Tracker : Type := mkTracker {
  tracker_blob : option string;
  read_error : option exn;
  write_error : option exn
}.

(** The objects of all buckets in listing order, the tracker object, the
    task queue, and the events so far. *)
Record World : Type := mkWorld {
  storage : list (string * string * File);
  tracker : Tracker;
  queue : list Task;
  events : list Event
}.

(** The names the tracker text reads as; none without a tracker object
    (lines 116-118). *)
Definition marked (w : World) : gset string :=
  from_option tracker_names ∅ (tracker_blob (tracker w)).

Definition log (e : Event) (w : World) : World :=
  {| storage := storage w; tracker := tracker w; queue := queue w;
     events := events w ++ [e] |}.

Fixpoint get_object (bucket name : string) (l : list (string * string * File))
  : option File :=
  match l with
  | [] => None
  | (b, n, f) :: rest =>
      if String.eqb b bucket && String.eqb n name then Some f
      else get_object bucket name rest
  end.

Fixpoint put_object (bucket name : string) (f : File)
    (l : list (string * string * File)) : list (string * string * File) :=
  match l with
  | [] => [(bucket, name, f)]
  | (b, n, g) :: rest =>
      if String.eqb b bucket && String.eqb n name then (b, n, f) :: rest
      else (b, n, g) :: put_object bucket name f rest
  end.

(** The base names [os.path.join(tmpdir, base_name)] turns into the path
    of a file inside the temporary directory. *)
Definition names_a_file (base_name : string) : Prop :=
  base_name <> "" /\ base_name <> "." /\ base_name <> "..".

(** The base names for which [os.path.join(tmpdir, base_name)] is a
    directory: the temporary directory itself or its parent. *)
Definition is_directory (base_name : string) : bool :=
  String.eqb base_name "" || String.eqb base_name "."
  || String.eqb base_name "..".

(** [blob.download_to_filename(os.path.join(tmpdir, base_name))]: the
    local file is opened for writing first, then the object is fetched. *)
Definition download (bucket name base_name : string) (w : World)
  : result File * World :=
  if is_directory base_name then (Raise IsADirectoryError, w)
  else match get_object bucket name (storage w) with
       | Some f => (Ok f, log (Downloaded bucket name) w)
       | None => (Raise NotFound, w)
       end.

(** [blob.upload_from_filename(path)] *)
Definition upload (bucket name : string) (f : File) (w : World) : World :=
  log (Uploaded bucket name)
    {| storage := put_object bucket name f (storage w);
       tracker := tracker w; queue := queue w; events := events w |}.

(** [client.bucket(b).list_blobs(prefix=p)], as the names it yields. *)
Definition list_blobs (bucket prefix : string) (w : World)
  : list string * World :=
  (map (fun o => snd (fst o))
     (List.filter (fun o => String.eqb (fst (fst o)) bucket
                       && String.prefix prefix (snd (fst o)))
        (storage w)),
   log (Listed bucket prefix) w).

(** Lines 112-118: [blob.exists()] and [blob.download_as_text()] are
    the read. *)
Definition load_tracker (w : World) : result (gset string) * World :=
  match read_error (tracker w) with
  | Some e => (Raise e, w)
  | None => (Ok (marked w), log TrackerRead w)
  end.

(** [blob.upload_from_string(text)] on the tracker object, when it does
    not raise. *)
Definition write_tracker (text : string) (w : World) : World :=
  log TrackerWritten
    {| storage := storage w;
       tracker := {| tracker_blob := Some text;
                     read_error := read_error (tracker w);
                     write_error := write_error (tracker w) |};
       queue := queue w;
       events := events w |}.

(** Lines 120-125. *)
Definition update_tracker (new_files existing : gset string) (w : World)
  : result unit * World :=
  let all_files := existing ∪ new_files in
  match write_error (tracker w) with
  | Some e => (Raise e, w)
  | None => (Ok tt, write_tracker (tracker_text all_files) w)
  end.

Definition create_task (t : Task) (w : World) : World :=
  log (TaskCreated t)
    {| storage := storage w; tracker := tracker w; queue := queue w ++ [t];
       events := events w |}.

(** ** The HTTP handlers *)

Inductive Body : Type :=
  | Procesado (file_path : string)
  | Skipped (base_name : string)
  | TareasEnviadas (n : Z)
  | Error (e : exn).

Record Response : Type := mkResponse {
  status : Z;
  body : Body
}.

(** The decoded JSON of a [/process_single] call; the three string keys
    are present, [horizontal_parts] may be missing. *)
Record ProcessRequest : Type := mkProcessRequest {
  p_input_bucket : string;
  p_output_bucket : string;
  p_file_path : string;
  p_horizontal_parts : option Z
}.

Record EnqueueRequest : Type := mkEnqueueRequest {
  e_input_bucket : string;
  e_output_bucket : string;
  e_max_files : option Z;
  e_horizontal_parts : option Z
}.

(** Line 203: the output name of a request whose output URI has prefix
    [op]. *)
Definition output_name (op : string) (req : ProcessRequest) : string :=
  path_join op (rsplit_dot_head (basename (p_file_path req)) ++ "_tiles.pdf").

Definition raster_extensions : list string :=
  [".jpg"; ".jpeg"; ".png"; ".tif"; ".tiff"].

Definition mem (x : string) (l : list string) : bool :=
  existsb (String.eqb x) l.

Section Pipeline.

Context `{Platform}.

(** [convert_from_path(path, first_page=1, last_page=1, dpi=TARGET_DPI)]:
    the pages of a PDF are kept as rendered at the target DPI. *)
Definition convert_from_path (input : File) : result (list Image) :=
  match file_body input with
  | Pdf pages => Ok (firstn 1 pages)
  | Raster _ | Unreadable => Raise PDFPageCountError
  end.

(** Lines 85-87. Pillow's default JPEG quality is 75. *)
Definition extract_first_page_from_pdf (input : File) : result JpegFile :=
  images ← convert_from_path input;
  match images with
  | [] => Raise IndexError
  | page :: _ => Ok (save_jpeg page 75 None false)
  end.

(** [cv2.imread(path)]: [None] for a file it cannot decode. *)
Definition imread (f : JpegFile) : option Array :=
  let img := jpeg_image f in
  if (0 <? width img) && (0 <? height img)
  then Some {| arr_base := JpegDecoded (jpeg_quality f) (data img);
               arr_rows := range (height img);
               arr_width := width img |}
  else None.

(** Lines 104-108 for one tile; [cv2.cvtColor] refuses an empty array. *)
Definition page_of_tile (tile : Array) : result Image :=
  if (shape0 tile =? 0) || (arr_width tile <=? 0) then Raise CvError
  else Ok {| width := arr_width tile;
             height := shape0 tile;
             mode := "RGB";
             getexif := ExifRaises;
             data := Strip (arr_rows tile) (arr_base tile) |}.

Fixpoint pages_of_tiles (tiles : list Array) : result (list Image) :=
  match tiles with
  | [] => Ok []
  | tile :: rest =>
      page ← page_of_tile tile;
      pages ← pages_of_tiles rest;
      Ok (page :: pages)
  end.

(** Lines 101-110. *)
Definition tiles_to_pdf (tiles : list Array) : result File :=
  pages ← pages_of_tiles tiles;
  Ok {| file_size := pdf_size pages; file_body := Pdf pages |}.

(** Lines 193-198: the image written to [image_path]; [Ok None] is the
    early return for an extension outside the allow-list. *)
Definition image_for_tiling (fuel : nat) (ext : string) (local_file : File)
  : option (result (option JpegFile)) :=
  if String.eqb ext ".pdf"
  then Some (image ← extract_first_page_from_pdf local_file; Ok (Some image))
  else if mem ext raster_extensions
  then match compress_image_adaptively fuel local_file with
       | None => None
       | Some (_, r) => Some (image ← r; Ok (Some image))
       end
  else Some (Ok None).

(** The body of the [try] of [process_single] (lines 170-207). *)
Definition process_single_try (fuel : nat) (req : ProcessRequest) (w : World)
  : option (result Response * World) :=
  let file_path := p_file_path req in
  let horizontal_parts := default 2 (p_horizontal_parts req) in
  match bucket_and_prefix (p_input_bucket req),
        bucket_and_prefix (p_output_bucket req) with
  | Raise e, _ => Some (Raise e, w)
  | Ok _, Raise e => Some (Raise e, w)
  | Ok (input_bucket_name, _), Ok (output_bucket_name, output_prefix) =>
      let base_name := basename file_path in
      match download input_bucket_name file_path base_name w with
      | (Raise e, w1) => Some (Raise e, w1)
      | (Ok local_file, w1) =>
          let ext := lower (splitext_ext base_name) in
          match image_for_tiling fuel ext local_file with
          | None => None
          | Some (Raise e) => Some (Raise e, w1)
          | Some (Ok None) => Some (Ok (mkResponse 200 (Skipped base_name)), w1)
          | Some (Ok (Some image)) =>
              match (tiles ← split_image_horizontally (imread image)
                               horizontal_parts;
                     tiles_to_pdf tiles) with
              | Raise e => Some (Raise e, w1)
              | Ok final_pdf =>
                  let output_blob_path :=
                    path_join output_prefix
                      (rsplit_dot_head base_name ++ "_tiles.pdf") in
                  let w2 := upload output_bucket_name output_blob_path
                              final_pdf w1 in
                  match load_tracker w2 with
                  | (Raise e, w3) => Some (Raise e, w3)
                  | (Ok existing, w3) =>
                      match update_tracker {[ file_path ]} existing w3 with
                      | (Raise e, w4) => Some (Raise e, w4)
                      | (Ok _, w4) =>
                          Some (Ok (mkResponse 200 (Procesado file_path)),
                                w4)
                      end
                  end
              end
          end
      end
  end.

(** [process_single] with its [except] (lines 208-210). *)
Definition process_single (fuel : nat) (req : ProcessRequest) (w : World)
  : option (Response * World) :=
  match process_single_try fuel req w with
  | None => None
  | Some (Ok resp, w') => Some (resp, w')
  | Some (Raise e, w') => Some (mkResponse 500 (Error e), w')
  end.

End Pipeline.

(** The body of the [try] of [enqueue_tasks] (lines 130-162). *)
Definition enqueue_tasks_try (req : EnqueueRequest) (w : World)
  : result Response * World :=
  let max_files := default 5 (e_max_files req) in
  let horizontal_parts := default 5 (e_horizontal_parts req) in
  match bucket_and_prefix (e_input_bucket req) with
  | Raise e => (Raise e, w)
  | Ok (input_bucket_name, input_prefix) =>
      match load_tracker w with
      | (Raise e, w1) => (Raise e, w1)
      | (Ok processed, w1) =>
          let '(names, w2) := list_blobs input_bucket_name input_prefix w1 in
          let files :=
            slice (List.filter
                     (fun name => negb (bool_decide (name ∈ processed))
                                  && negb (endswith_char "/" name))
                     names)
              0 max_files in
          let tasks :=
            map (fun file_path =>
                   mkTask (e_input_bucket req) (e_output_bucket req) file_path
                     horizontal_parts)
              files in
          (Ok (mkResponse 200 (TareasEnviadas (Z.of_nat (length files)))),
           fold_left (fun w t => create_task t w) tasks w2)
      end
  end.

Definition enqueue_tasks (req : EnqueueRequest) (w : World)
  : Response * World :=
  match enqueue_tasks_try req w with
  | (Ok resp, w') => (resp, w')
  | (Raise e, w') => (mkResponse 500 (Error e), w')
  end.

(** ** Sample platform and inputs *)

(** A platform whose JPEG size grows with the pixel count and the quality,
    and whose [pow] is the correctly rounded square root. *)
Definition area_platform : Platform :=
  {| jpeg_size := fun img quality _ => width img * height img * quality / 32;
     pdf_size := fun pages => 1024 * Z.of_nat (length pages);
     libm_pow := fun x _ => Float.sqrt x |}.

Definition plain_image (w h : Z) : Image :=
  {| width := w; height := h; mode := "RGB"; getexif := ExifNone;
     data := Decoded 0 |}.

Definition raster_file (size w h : Z) : File :=
  {| file_size := size; file_body := Raster (plain_image w h) |}.

(** A one-bit scan: large in pixels, small on disk. *)
Definition bilevel_scan (w h : Z) : File :=
  {| file_size := w * h / 8;
     file_body := Raster {| width := w; height := h; mode := "1";
                            getexif := ExifRaises; data := Decoded 0 |} |}.

(** The last step of Stdlib's [binary_round_aux]: the rounded mantissa
    is brought back to 53 digits and the result is formed. *)
Definition finish (sx : bool) (m : Z) (e : Z) : spec_float :=
  let '(mrs, e') := shr_fexp 53 1024 m e loc_Exact in
  match shr_m mrs with
  | Z0 => S754_zero sx
  | Zpos m => if Z.leb e' (1024 - 53) then S754_finite sx m e' else S754_infinity sx
  | _ => S754_nan
  end.

(** A tracker object that can be read and written, holding the text
    written for the names [processed], if any. *)
Definition tracker_of (processed : option (gset string)) : Tracker :=
  {| tracker_blob := tracker_text <$> processed;
     read_error := None; write_error := None |}.

(** One object [name] in the bucket [in-bucket], and a tracker. *)
Definition one_object_world (name : string) (f : File)
    (processed : option (gset string)) : World :=
  {| storage := [("in-bucket", name, f)]; tracker := tracker_of processed;
     queue := []; events := [] |}.


Definition request_for (name : string) : ProcessRequest :=
  {| p_input_bucket := "gs://in-bucket/maps";
     p_output_bucket := "gs://out-bucket/tiles";
     p_file_path := name;
     p_horizontal_parts := None |}.


Definition pdf_file (size w h : Z) : File :=
  {| file_size := size; file_body := Pdf [plain_image w h] |}.


(** The schedule from the initial parameters of lines 63-64. *)
Definition the_schedule : list (Z * float) := schedule 12 95 Float.one.

(** [n] values from [r] down, each 0.05 below the one before. *)
Fixpoint descend (n : nat) (r : float) : list float :=
  match n with
  | O => []
  | S n' => r :: descend n' (Float.sub r Float.five_hundredths)
  end.

(** The saved file is larger than the budget. *)
Definition over_budget (a : Attempt) : Prop :=
  MAX_FILE_SIZE < jpeg_bytes (at_file a).

(** The saved file is the candidate of [img] at the attempt's parameters. *)
Definition encoded_from `{Platform} (img : Image) (a : Attempt) : Prop :=
  candidate img (at_quality a) (at_resize a) = Ok (at_file a).

(** ** Notions for the further properties *)

(** *** Pages, saves and names

    The page made from a tile. *)
Definition page_shows (tile : Array) (page : Image) : Prop :=
  width page = arr_width tile
  /\ height page = shape0 tile
  /\ mode page = "RGB"
  /\ data page = Strip (arr_rows tile) (arr_base tile).

(** The options of every save of the loop. *)
Definition loop_save (f : JpegFile) : Prop :=
  (jpeg_quality f = 95 \/ jpeg_quality f = 90)
  /\ jpeg_dpi f = Some (TARGET_DPI, TARGET_DPI)
  /\ jpeg_optimize f = true
  /\ mode (jpeg_image f) = "RGB".

(** The names [enqueue_tasks] may queue, before [max_files] cuts the
    list: the listed names that the tracker does not hold and that do not
    end in a slash. *)
Definition candidates (b p : string) (w : World) : list string :=
  List.filter (fun name => negb (bool_decide (name ∈ marked w))
                           && negb (endswith_char "/" name))
    (map (fun o => snd (fst o))
       (List.filter (fun o => String.eqb (fst (fst o)) b
                              && String.prefix p (snd (fst o)))
          (storage w))).

Definition task_for (req : EnqueueRequest) (file_path : string) : Task :=
  mkTask (e_input_bucket req) (e_output_bucket req) file_path
    (default 5 (e_horizontal_parts req)).

(** From [w] to [w'] nothing was removed: every object still exists,
    every marked name that the text form keeps is still marked, and queue
    and events were only extended. *)
Definition only_grows (w w' : World) : Prop :=
  (forall b n, is_Some (get_object b n (storage w)) ->
               is_Some (get_object b n (storage w')))
  /\ (forall name, clean_name name = true ->
                   name ∈ marked w -> name ∈ marked w')
  /\ (exists tasks, queue w' = (queue w ++ tasks)%list)
  /\ (exists evs, events w' = (events w ++ evs)%list).

(** [c in s] *)
Fixpoint has_char (c : ascii) (s : string) : bool :=
  match s with
  | EmptyString => false
  | String a rest => Ascii.eqb a c || has_char c rest
  end.

(** * Properties *)

(** ** Floats *)

(** The literals are the doubles nearest to 1, 1/2, 5/100 and 20, in
    canonical form. *)
Lemma float_literals :
  Float.of_int 1 = Ok Float.one
  /\ Float.int_truediv 1 2 = Ok Float.half
  /\ Float.int_truediv 5 100 = Ok Float.five_hundredths
  /\ Float.of_int 20 = Ok Float.twenty
  /\ forallb (valid_binary Float.prec Float.emax)
       [Float.one; Float.half; Float.five_hundredths; Float.twenty] = true.
Proof. split_and!; vm_compute; reflexivity. Qed.

(** *** Rounding of a quotient

    The division of two ints rounds once, to nearest. For the megapixel
    count this makes the float test [current_megapixels > 20] the same as
    the integer test on the pixel count. *)

Lemma digits2_pos_bounds (p : positive) :
  2 ^ (Zpos (digits2_pos p) - 1) <= Zpos p < 2 ^ Zpos (digits2_pos p).
Proof.
  induction p as [p IH|p IH|]; cbn [digits2_pos].
  - rewrite Pos2Z.inj_succ.
    replace (Z.succ (Z.pos (digits2_pos p)) - 1) with (Z.succ (Z.pos (digits2_pos p) - 1)) by lia.
    rewrite !Z.pow_succ_r by lia. lia.
  - rewrite Pos2Z.inj_succ.
    replace (Z.succ (Z.pos (digits2_pos p)) - 1) with (Z.succ (Z.pos (digits2_pos p) - 1)) by lia.
    rewrite !Z.pow_succ_r by lia. lia.
  - cbn. lia.
Qed.

Lemma Zdigits2_unique (z d : Z) :
  0 < d -> 2 ^ (d - 1) <= z < 2 ^ d -> Zdigits2 z = d.
Proof.
  intros Hd [Hlo Hhi].
  assert (Hz : 0 < z) by (pose proof (Z.pow_pos_nonneg 2 (d - 1)); lia).
  destruct z as [|p|p]; try lia. cbn [Zdigits2].
  pose proof (digits2_pos_bounds p) as [Plo Phi].
  set (d' := Z.pos (digits2_pos p)) in *.
  destruct (Z.lt_trichotomy d' d) as [Hlt|[Heq|Hgt]]; [|exact Heq|].
  - assert (2 ^ d' <= 2 ^ (d - 1)) by (apply Z.pow_le_mono_r; lia). lia.
  - assert (2 ^ d <= 2 ^ (d' - 1)) by (apply Z.pow_le_mono_r; lia). lia.
Qed.


Lemma finish_53 (m : positive) (e : Z) :
  2 ^ 52 <= Zpos m < 2 ^ 53 -> -1000 < e < 901 ->
  finish false (Zpos m) e = S754_finite false m e.
Proof.
  intros Hm He. unfold finish, shr_fexp.
  rewrite (Zdigits2_unique (Zpos m) 53) by (try split; cbn; lia).
  unfold fexp, emin.
  replace (Z.max (53 + e - 53) (3 - 1024 - 53) - e) with 0 by lia.
  cbn [shr shr_record_of_loc shr_m].
  destruct (e <=? 1024 - 53) eqn:E; [reflexivity|lia].
Qed.

Lemma finish_carry (e : Z) :
  -1000 < e < 901 ->
  finish false (2 ^ 53) e = S754_finite false (Z.to_pos (2 ^ 52)) (e + 1).
Proof.
  intros He. unfold finish, shr_fexp.
  rewrite (Zdigits2_unique (2 ^ 53) 54) by (try split; cbn; lia).
  unfold fexp, emin.
  replace (Z.max (54 + e - 53) (3 - 1024 - 53) - e) with 1 by lia.
  let x := eval vm_compute in (2 ^ 53) in change (2 ^ 53) with x.
  cbn [shr shr_record_of_loc shr_m SpecFloat.iter_pos shr_1 orb].
  destruct (e + 1 <=? 1024 - 53) eqn:E; [reflexivity|lia].
Qed.

Lemma round_nearest_even_cases (m : Z) (l : location) :
  round_nearest_even m l = m \/ round_nearest_even m l = m + 1.
Proof.
  destruct l as [|[| |]]; cbn [round_nearest_even];
    try destruct (Z.even m); auto.
Qed.

Lemma round_aux_shape (q e : Z) (lx : location) :
  2 ^ 52 <= q < 2 ^ 54 - 2 -> -1000 < e < 900 ->
  exists m e2,
    binary_round_aux 53 1024 false q e lx = S754_finite false m e2
    /\ ((q < 2 ^ 53 /\ e2 = e /\ q <= Zpos m <= q + 1
         /\ (lx = loc_Exact -> Zpos m = q))
        \/ (q = 2 ^ 53 - 1 /\ e2 = e + 1 /\ Zpos m = 2 ^ 52)
        \/ (2 ^ 53 <= q /\ e2 = e + 1 /\ q / 2 <= Zpos m <= q / 2 + 1)).
Proof.
  intros Hq He.
  destruct (Z.lt_ge_cases q (2 ^ 53)) as [Hsmall|Hbig].
  - (* 53 digits *)
    assert (Hd : Zdigits2 q = 53) by (apply Zdigits2_unique; [lia|]; split; cbn; lia).
    unfold binary_round_aux, shr_fexp at 1. rewrite Hd.
    unfold fexp at 1, emin.
    replace (Z.max (53 + e - 53) (3 - 1024 - 53) - e) with 0 by lia.
    cbn [shr].
    assert (Hloc : loc_of_shr_record (shr_record_of_loc q lx) = lx)
      by (by destruct lx as [|[| |]]).
    assert (Hm : shr_m (shr_record_of_loc q lx) = q)
      by (by destruct lx as [|[| |]]).
    rewrite Hloc, Hm.
    fold (finish false (round_nearest_even q lx) e).
    assert (Hr : round_nearest_even q lx = q
                 \/ (round_nearest_even q lx = q + 1 /\ lx <> loc_Exact)).
    { destruct lx as [|[| |]]; cbn [round_nearest_even];
        try destruct (Z.even q);
        first [by left | right; split; [reflexivity|discriminate]]. }
    destruct Hr as [-> | [-> Hne]].
    + destruct q as [|p|p]; try lia.
      exists p, e. split; [apply finish_53; lia|]. left. split_and!; auto; lia.
    + destruct (Z.eq_dec (q + 1) (2 ^ 53)) as [Hc|Hc].
      * rewrite Hc. eexists _, _. split; [apply finish_carry; lia|].
        right. left. split_and!; auto; lia.
      * destruct (q + 1) as [|p|p] eqn:Hp; try lia.
        exists p, e. split; [apply finish_53; lia|]. left.
        split_and!; auto; try lia. intros ->. done.
  - (* 54 digits: one bit is shifted out before rounding *)
    assert (Hd : Zdigits2 q = 54) by (apply Zdigits2_unique; [lia|]; split; cbn; lia).
    unfold binary_round_aux, shr_fexp at 1. rewrite Hd.
    unfold fexp at 1, emin.
    replace (Z.max (54 + e - 53) (3 - 1024 - 53) - e) with 1 by lia.
    cbn [shr SpecFloat.iter_pos].
    set (mrs := shr_1 (shr_record_of_loc q lx)).
    assert (Hm : shr_m mrs = q / 2).
    { subst mrs. destruct q as [|[p|p|]|]; try lia;
        destruct lx as [|[| |]]; cbn [shr_record_of_loc shr_1 shr_m].
      all: first [ rewrite Pos2Z.inj_xI; apply Z.div_unique with 1; lia
                 | rewrite Pos2Z.inj_xO; apply Z.div_unique with 0; lia ]. }
    fold (finish false (round_nearest_even (shr_m mrs) (loc_of_shr_record mrs))
            (e + 1)).
    rewrite Hm.
    assert (Hhalf : 2 ^ 52 <= q / 2 <= 2 ^ 53 - 2).
    { split; [apply Z.div_le_lower_bound; lia|].
      apply Z.lt_succ_r, Z.div_lt_upper_bound; lia. }
    destruct (round_nearest_even_cases (q / 2) (loc_of_shr_record mrs))
      as [-> | ->].
    + destruct (q / 2) as [|p|p] eqn:Hp; try lia.
      exists p, (e + 1). split; [apply finish_53; lia|].
      right. right. split_and!; lia.
    + destruct (q / 2 + 1) as [|p|p] eqn:Hp; try lia.
      exists p, (e + 1). split; [apply finish_53; lia|].
      right. right. split_and!; lia.
Qed.

Lemma twenty_ltb (m : positive) (e : Z) :
  Float.ltb Float.twenty (S754_finite false m e) = true
  <-> (-48 < e \/ (e = -48 /\ 5629499534213120 < Zpos m)).
Proof.
  unfold Float.ltb, Float.twenty, SFltb, SFcompare.
  change (Pos.compare_cont Eq 5629499534213120 m)
    with (Z.compare 5629499534213120 (Zpos m)).
  destruct (Z.compare_spec (-48) e) as [<-|Hlt|Hgt].
  - destruct (Z.compare_spec 5629499534213120 (Zpos m)); split;
      try discriminate; try reflexivity; lia.
  - split; [lia|reflexivity].
  - split; [discriminate|lia].
Qed.

Lemma megapixels_over_twenty (n : Z) (mp : float) :
  0 <= n < 2 ^ 62 ->
  Float.int_truediv n 1000000 = Ok mp ->
  (Float.ltb Float.twenty mp = true <-> 20000000 < n).
Proof.
  intros Hn. unfold Float.int_truediv.
  change (1000000 =? 0) with false. cbv iota.
  destruct n as [|p|p]; [| |lia].
  { cbn. intros [= <-]. split; [discriminate|lia]. }
  unfold Float.div, Float.exact, SFdiv, SFdiv_core_binary.
  change (Zdigits2 1000000) with 20.
  cbn [Zdigits2].
  pose proof (digits2_pos_bounds p) as Hd.
  set (d := Z.pos (digits2_pos p)) in *.
  assert (Hd62 : 1 <= d <= 62).
  { split; [subst d; lia|].
    destruct (Z.le_gt_cases d 62) as [|Hgt]; [done|].
    assert (2 ^ 62 <= 2 ^ (d - 1)) by (apply Z.pow_le_mono_r; lia). lia. }
  unfold fexp, emin, Float.prec, Float.emax.
  replace (Z.min (Z.max (d + 0 - (20 + 0) - 53) (3 - 1024 - 53)) (0 - 0))
    with (d - 73) by lia.
  replace (0 - 0 - (d - 73)) with (73 - d) by lia.
  assert (Hm' : 2 ^ 72 <= Z.pos p * 2 ^ (73 - d) < 2 ^ 73).
  { assert (E72 : 2 ^ 72 = 2 ^ (d - 1) * 2 ^ (73 - d))
      by (rewrite <- Z.pow_add_r by lia; f_equal; lia).
    assert (E73 : 2 ^ 73 = 2 ^ d * 2 ^ (73 - d))
      by (rewrite <- Z.pow_add_r by lia; f_equal; lia).
    assert (Hk : 0 < 2 ^ (73 - d)) by (apply Z.pow_pos_nonneg; lia).
    rewrite E72, E73. clear E72 E73.
    generalize dependent (2 ^ (73 - d)). intros k Hk.
    generalize dependent (2 ^ (d - 1)). generalize dependent (2 ^ d).
    intros a b Hab. nia. }
  assert (Hshift : match 73 - d with
                   | 0 => Z.pos p
                   | Z.pos _ => Z.shiftl (Z.pos p) (73 - d)
                   | Z.neg _ => 0
                   end = Z.pos p * 2 ^ (73 - d)).
  { destruct (73 - d) as [|s|s] eqn:Hs; try lia.
    rewrite Z.shiftl_mul_pow2 by lia. reflexivity. }
  rewrite Hshift. clear Hshift.
  set (m' := Z.pos p * 2 ^ (73 - d)) in *.
  pose proof (Z_div_mod m' 1000000 eq_refl) as Hdiv.
  change IntDef.Z.div_eucl with Z.div_eucl.
  destruct (Z.div_eucl m' 1000000) as [q r].
  destruct Hdiv as [Hdiv Hr].
  change (2 ^ 72) with 4722366482869645213696 in Hm'.
  change (2 ^ 73) with 9444732965739290427392 in Hm'.
  assert (Hq : 2 ^ 52 <= q < 2 ^ 54 - 2).
  { change (2 ^ 52) with 4503599627370496.
    change (2 ^ 54 - 2) with 18014398509481982. lia. }
  destruct (round_aux_shape q (d - 73) (new_location 1000000 r) Hq)
    as (m & e2 & Hround & Hshape); [lia|].
  cbn [xorb]. rewrite Hround. cbn [Float.is_finite].
  intros [= <-]. rewrite twenty_ltb.
  assert (Hexact : r = 0 -> new_location 1000000 r = loc_Exact)
    by (by intros ->).
  change (2 ^ 52) with 4503599627370496 in *.
  change (2 ^ 53) with 9007199254740992 in *.
  destruct (Z.lt_trichotomy d 25) as [Hlt|[Heq|Hgt]].
  - (* fewer than 2^24 pixels *)
    assert (Hp : Z.pos p < 2 ^ 24).
    { assert (2 ^ d <= 2 ^ 24) by (apply Z.pow_le_mono_r; lia). lia. }
    change (2 ^ 24) with 16777216 in Hp.
    split; [|lia]. intros Hover. exfalso.
    destruct Hshape as [(_ & -> & _) | [(_ & -> & Hm) | (_ & -> & Hm)]];
      Z.to_euclidean_division_equations; lia.
  - (* between 2^24 and 2^25 pixels *)
    assert (Hp : m' = Z.pos p * 2 ^ 48) by (subst m'; rewrite Heq; reflexivity).
    change (2 ^ 48) with 281474976710656 in Hp.
    destruct Hshape as [(Hq53 & -> & Hm & Hex) | [(Hq53 & -> & Hm) | (Hq53 & -> & Hm)]].
    + split.
      * intros [Hover | [_ Hover]]; [lia|].
        destruct (Z.eq_dec r 0) as [Hr0|Hr0]; [rewrite (Hex (Hexact Hr0)) in Hover|];
          lia.
      * intros Hover. right. split; lia.
    + split; [lia|]. intros _. left. lia.
    + split; [lia|]. intros _. left. lia.
  - (* 2^25 pixels or more *)
    assert (Hp : 2 ^ 25 <= Z.pos p).
    { assert (2 ^ 25 <= 2 ^ (d - 1)) by (apply Z.pow_le_mono_r; lia). lia. }
    change (2 ^ 25) with 33554432 in Hp.
    split; [lia|]. intros _. left.
    destruct Hshape as [(_ & -> & _) | [(_ & -> & _) | (_ & -> & _)]]; lia.
Qed.

(** ** The search loop *)

Section SearchFacts.

Context `{Platform}.

Lemma exhausted_S (fuel : nat) :
  forall q r, exhausted fuel q r = true ->
    exhausted (S fuel) q r = true /\ schedule (S fuel) q r = schedule fuel q r.
Proof.
  induction fuel as [|fuel IH]; intros q r Hex; [discriminate|].
  cbn [exhausted schedule] in *.
  destruct (next_params q r) as [[q' r']|e]; [|by split].
  destruct (IH q' r' Hex) as [IH1 IH2].
  cbn [exhausted schedule] in IH1, IH2. rewrite IH1, IH2. by split.
Qed.

Lemma exhausted_le (fuel fuel' : nat) q r :
  (fuel <= fuel')%nat -> exhausted fuel q r = true ->
  exhausted fuel' q r = true /\ schedule fuel' q r = schedule fuel q r.
Proof.
  induction 1 as [|m Hle IH]; intros Hex; [done|].
  destruct (IH Hex) as [IH1 IH2].
  destruct (exhausted_S m q r IH1) as [E1 E2].
  split; [done|]. by rewrite E2.
Qed.

Lemma next_params_raises (q : Z) (r : float) (e : exn) :
  next_params q r = Raise e -> e = budget_unreachable.
Proof.
  unfold next_params.
  destruct (q >? min_quality); [discriminate|].
  destruct (Float.ltb min_resize r); [discriminate|].
  by intros [= <-].
Qed.

(** On an exhausted schedule the loop is the first fit along it. *)
Lemma search_first_fit (img : Image) (fuel : nat) :
  forall q r, exhausted fuel q r = true ->
    search fuel img q r = Some (first_fit img (schedule fuel q r)).
Proof.
  induction fuel as [|fuel IH]; intros q r Hex; [discriminate|].
  cbn [exhausted schedule search first_fit] in *.
  destruct (candidate img q r) as [temp|e]; [|done].
  destruct (jpeg_bytes temp <=? MAX_FILE_SIZE); [done|].
  destruct (next_params q r) as [[q' r']|e] eqn:Hnext.
  - rewrite (IH q' r' Hex).
    by destruct (first_fit img (schedule fuel q' r')).
  - cbn [first_fit]. by rewrite (next_params_raises q r e Hnext).
Qed.

Lemma schedule_exhausted : exhausted 12 95 Float.one = true.
Proof. vm_compute. reflexivity. Qed.

Lemma search_enough_fuel (img : Image) (fuel : nat) :
  (12 <= fuel)%nat ->
  search fuel img 95 Float.one = Some (first_fit img the_schedule).
Proof.
  intros Hle.
  destruct (exhausted_le 12 fuel 95 Float.one Hle schedule_exhausted) as [E1 E2].
  rewrite (search_first_fit img fuel _ _ E1). unfold the_schedule. by rewrite E2.
Qed.

(** With less fuel the schedule is cut short, nothing else. *)
Lemma schedule_firstn (fuel : nat) :
  forall k q r, schedule fuel q r = firstn fuel (schedule (fuel + k) q r).
Proof.
  induction fuel as [|fuel IH]; intros k q r; [done|].
  cbn [schedule Nat.add firstn]. f_equal.
  destruct (next_params q r) as [[q' r']|e]; [apply IH|].
  by destruct fuel.
Qed.

Lemma schedule_length (fuel : nat) :
  forall q r, (length (schedule fuel q r) <= fuel)%nat.
Proof.
  induction fuel as [|fuel IH]; intros q r; cbn [schedule length]; [lia|].
  destruct (next_params q r) as [[q' r']|e]; cbn [length].
  - specialize (IH q' r'). lia.
  - lia.
Qed.

Lemma schedule_prefix_of_the_schedule (fuel n : nat) :
  (n <= fuel)%nat ->
  firstn n (schedule fuel 95 Float.one) = firstn n the_schedule.
Proof.
  intros Hn. destruct (Nat.le_gt_cases 12 fuel) as [Hle|Hlt].
  - destruct (exhausted_le 12 fuel 95 Float.one Hle schedule_exhausted) as [_ E].
    by rewrite E.
  - unfold the_schedule.
    replace 12%nat with (fuel + (12 - fuel))%nat by lia.
    rewrite (schedule_firstn fuel (12 - fuel)), firstn_firstn.
    f_equal. lia.
Qed.

Lemma search_sound (img : Image) (fuel : nat) :
  forall q r saved res,
    search fuel img q r = Some (saved, res) ->
    map attempt_params saved = firstn (length saved) (schedule fuel q r)
    /\ Forall (encoded_from img) saved
    /\ (length saved <= fuel)%nat
    /\ match res with
       | Ok out =>
           exists earlier last,
             saved = (earlier ++ [last])%list /\ at_file last = out
             /\ jpeg_bytes out <= MAX_FILE_SIZE
             /\ Forall over_budget earlier
       | Raise _ => Forall over_budget saved
       end.
Proof.
  induction fuel as [|fuel IH]; intros q r saved res Hrun; [discriminate|].
  cbn [search schedule] in Hrun |- *.
  destruct (candidate img q r) as [temp|e] eqn:Hcand.
  2:{ injection Hrun as <- <-. split_and!; cbn; auto with lia. }
  destruct (jpeg_bytes temp <=? MAX_FILE_SIZE) eqn:Hfit.
  { injection Hrun as <- <-. apply Z.leb_le in Hfit.
    split_and!; cbn; auto with lia.
    exists [], (mkAttempt q r temp). by split_and!. }
  apply Z.leb_gt in Hfit.
  destruct (next_params q r) as [[q' r']|e] eqn:Hnext.
  2:{ injection Hrun as <- <-. split_and!; cbn; auto with lia. }
  destruct (search fuel img q' r') as [[saved' res']|] eqn:Hrec; [|discriminate].
  injection Hrun as <- <-.
  destruct (IH q' r' saved' res' Hrec) as (Hp & Hc & Hl & Hres).
  split_and!.
  - cbn. by rewrite Hp.
  - by constructor.
  - cbn. lia.
  - destruct res' as [out|e].
    + destruct Hres as (earlier & last & -> & Hlast & Hle & Hover).
      exists (mkAttempt q r temp :: earlier), last.
      split_and!; auto.
    + by constructor.
Qed.

Lemma forallb_firstn {A : Type} (f : A -> bool) (n : nat) :
  forall l, forallb f l = true -> forallb f (firstn n l) = true.
Proof.
  induction n as [|n IH]; intros [|a l] Hall; cbn in *; auto.
  apply andb_true_iff in Hall as [Ha Hl]. rewrite Ha. cbn. by apply IH.
Qed.

Lemma never_increases_firstn (n : nat) :
  forall l, never_increases l = true -> never_increases (firstn n l) = true.
Proof.
  induction n as [|n IH]; intros [|a l] Hmono; cbn [firstn never_increases] in *; auto.
  apply andb_true_iff in Hmono as [Ha Hl].
  apply andb_true_iff. split; [by apply forallb_firstn | by apply IH].
Qed.

Lemma the_schedule_never_increases : never_increases the_schedule = true.
Proof. vm_compute. reflexivity. Qed.

End SearchFacts.

(** ** The compressor *)

Section CompressorProperties.

Context `{Platform}.

Lemma compress_sound (fuel : nat) (input : File) saved res :
  compress_image_adaptively fuel input = Some (saved, res) ->
  (exists e, prepare input = Raise e /\ saved = [] /\ res = Raise e)
  \/ (exists img, prepare input = Ok img
                  /\ search fuel img 95 Float.one = Some (saved, res)).
Proof.
  unfold compress_image_adaptively.
  destruct (prepare input) as [img|e]; intros Hrun.
  - right. by exists img.
  - left. exists e. by injection Hrun as <- <-.
Qed.

(** C1. Whenever [compress_image_adaptively] returns a file, the file has
    at most [MAX_FILE_SIZE] bytes. The saves it made follow the schedule
    from its first entry, each is the candidate of the prepared image at
    its parameters, every save but the last was over the budget, and the
    last save is the file returned: the first candidate of the schedule
    that fits is the result, and nothing is encoded after it. *)
Theorem compress_returns_first_fit (fuel : nat) (input : File)
    (saved : list Attempt) (out : JpegFile) :
  compress_image_adaptively fuel input = Some (saved, Ok out) ->
  jpeg_bytes out <= MAX_FILE_SIZE
  /\ exists img earlier last,
       prepare input = Ok img
       /\ saved = (earlier ++ [last])%list
       /\ at_file last = out
       /\ Forall over_budget earlier
       /\ Forall (encoded_from img) saved
       /\ map attempt_params saved = firstn (length saved) the_schedule.
Proof.
  intros Hrun.
  destruct (compress_sound fuel input saved (Ok out) Hrun)
    as [(e & _ & _ & [=]) | (img & Hprep & Hsearch)].
  destruct (search_sound img fuel _ _ _ _ Hsearch)
    as (Hparams & Hcand & Hlen & earlier & last & Hsaved & Hlast & Hfit & Hover).
  split; [exact Hfit|].
  exists img, earlier, last. split_and!; auto.
  rewrite Hparams. by apply schedule_prefix_of_the_schedule.
Qed.

(** C3. With fuel for twelve iterations or more the search ends, and ends
    the same way whatever the fuel: it is a function of its input. It makes
    at most 12 saves; their parameters are an initial segment of the
    schedule, along which neither the quality nor the resize factor ever
    exceeds an earlier value. The schedule has 12 entries: quality 95 then
    90, and at quality 90 the resize factor from 1.0 down by ten steps of
    0.05. *)
Theorem search_monotone_and_bounded (fuel : nat) (input : File) :
  (12 <= fuel)%nat ->
  exists saved res,
    compress_image_adaptively fuel input = Some (saved, res)
    /\ compress_image_adaptively 12 input = Some (saved, res)
    /\ (length saved <= 12)%nat
    /\ map attempt_params saved = firstn (length saved) the_schedule
    /\ never_increases (map attempt_params saved) = true
    /\ length the_schedule = 12%nat
    /\ map fst the_schedule = 95 :: repeat 90 11
    /\ map snd the_schedule = Float.one :: descend 11 Float.one.
Proof.
  intros Hfuel. unfold compress_image_adaptively.
  destruct (prepare input) as [img|e].
  - rewrite (search_enough_fuel img fuel Hfuel).
    rewrite (search_enough_fuel img 12 (le_n _)).
    destruct (first_fit img the_schedule) as [saved res] eqn:Hff.
    assert (Hsearch : search 12 img 95 Float.one = Some (saved, res)).
    { by rewrite (search_enough_fuel img 12 (le_n _)), Hff. }
    destruct (search_sound img 12 _ _ _ _ Hsearch) as (Hparams & _ & Hlen & _).
    exists saved, res. split_and!; try (vm_compute; reflexivity); auto.
    rewrite Hparams. apply never_increases_firstn, the_schedule_never_increases.
  - exists [], (Raise e). split_and!; try (vm_compute; reflexivity); auto.
    cbn. lia.
Qed.

End CompressorProperties.

(** C5. The search at work on one-bit scans that encode to
    [width * height * quality / 32] bytes. On a 10000 x 10000 scan no
    candidate fits: the budget error is raised after twelve saves, all at
    quality 95 or 90, and the twelfth is made at the resize factor
    0x1.ffffffffffff9p-2, which is below [min_resize]: ten subtractions of
    the double 0.05 from 1.0 do not land on 0.5, and the candidate is 4999
    pixels wide, not 5000. On a 6400 x 6400 scan that twelfth candidate
    fits and is returned: a success below the floor. *)
Theorem last_candidate_below_min_resize :
  (exists saved final,
     compress_image_adaptively (H := area_platform) 12
       (bilevel_scan 10000 10000)
     = Some (saved, Raise budget_unreachable)
     /\ length saved = 12%nat
     /\ forallb (fun a => min_quality <=? at_quality a) saved = true
     /\ last saved = Some final
     /\ at_quality final = min_quality
     /\ at_resize final = S754_finite false 9007199254740985 (-54)
     /\ Float.ltb (at_resize final) min_resize = true
     /\ width (jpeg_image (at_file final)) = 4999)
  /\ (exists saved final,
        compress_image_adaptively (H := area_platform) 12
          (bilevel_scan 6400 6400)
        = Some (saved, Ok (at_file final))
        /\ length saved = 12%nat
        /\ last saved = Some final
        /\ Float.ltb (at_resize final) min_resize = true
        /\ width (jpeg_image (at_file final)) = 3199).
Proof.
  split.
  - eexists _, _. split; [vm_compute; reflexivity|].
    split; [reflexivity|]. split; [vm_compute; reflexivity|].
    split; [vm_compute; reflexivity|].
    split_and!; vm_compute; reflexivity.
  - eexists _, (mkAttempt _ _ _). split; [vm_compute; reflexivity|].
    split; [reflexivity|]. split; [vm_compute; reflexivity|].
    split; vm_compute; reflexivity.
Qed.

(** A 3400 x 3400 raster: the third candidate, at quality 90 and resize
    factor 0.95, is the first to fit. *)
Lemma compress_returns_first_fit_witness :
  exists saved out,
    compress_image_adaptively (H := area_platform) 12
      (raster_file 1000 3400 3400) = Some (saved, Ok out)
    /\ length saved = 3%nat
    /\ jpeg_bytes out = 29342531
    /\ jpeg_bytes out <= MAX_FILE_SIZE.
Proof.
  eexists _, _. split; [vm_compute; reflexivity|].
  split; [reflexivity|]. split; [reflexivity|].
  eapply proj1.
  eapply (compress_returns_first_fit (H := area_platform) 12
            (raster_file 1000 3400 3400)).
  vm_compute. reflexivity.
Defined.

(** A raster no candidate of which fits, with fuel to spare. *)
Lemma search_monotone_and_bounded_witness :
  (12 <= 20)%nat
  /\ exists saved res,
       compress_image_adaptively (H := area_platform) 20
         (raster_file 1000 10000 10000) = Some (saved, res)
       /\ (length saved <= 12)%nat
       /\ never_increases (map attempt_params saved) = true.
Proof.
  assert (Hfuel : (12 <= 20)%nat) by lia.
  split; [exact Hfuel|].
  destruct (search_monotone_and_bounded (H := area_platform) 20
              (raster_file 1000 10000 10000) Hfuel)
    as (saved & res & Hrun & _ & Hlen & _ & Hmono & _).
  exists saved, res. by split_and!.
Defined.

(** ** The orientation normalizer *)

Lemma to_rgb_mode (img : Image) : mode (to_rgb img) = "RGB".
Proof.
  unfold to_rgb. destruct (bool_decide (mode img = "RGB")) eqn:Hmode.
  - by apply bool_decide_eq_true in Hmode.
  - reflexivity.
Qed.

(** C9. The loop over Pillow's tag table stops at key 274. The normalizer
    rotates by 180 degrees when the EXIF dict holds the int 3 under that
    key, by 270 degrees for 6 and by 90 degrees for 8; for every other
    value, a missing key, an empty dict, no EXIF at all or a reader that
    raises, it returns the image as it came. It returns an image in every
    case, never an exception, and the caller's conversion leaves it in mode
    RGB. *)
Theorem orientation_correction (img : Image) :
  orientation_key TAGS None = Some 274
  /\ correct_image_orientation img =
       match getexif img with
       | ExifDict exif =>
           match exif !! 274 with
           | Some (ExifInt 3) => rotate 180 img
           | Some (ExifInt 6) => rotate 270 img
           | Some (ExifInt 8) => rotate 90 img
           | _ => img
           end
       | ExifNone | ExifRaises => img
       end
  /\ mode (to_rgb (correct_image_orientation img)) = "RGB".
Proof.
  split; [reflexivity|]. split; [|apply to_rgb_mode].
  unfold correct_image_orientation.
  change (orientation_key TAGS None) with (Some 274).
  destruct (getexif img) as [| |exif]; try reflexivity.
  destruct (bool_decide (exif = ∅)) eqn:Hempty.
  - apply bool_decide_eq_true in Hempty. subst exif.
    by rewrite lookup_empty.
  - unfold rotation_for.
    repeat match goal with
           | |- context [match ?x with _ => _ end] => destruct x
           end; reflexivity.
Qed.

(** ** The pre-downscale step *)

(** [int(x)] drops the fraction: it is the quotient rounded toward zero. *)
Lemma to_int_truncates (x : float) (z : Z) :
  Float.to_int x = Ok z -> z = Z.quot (Float.num x) (Float.den x).
Proof.
  destruct x as [s|s| |s m e]; cbn [Float.to_int]; try discriminate.
  - intros [= <-]. reflexivity.
  - intros [= <-]. unfold Float.num, Float.den.
    destruct e as [|k|k].
    + cbn [Z.max Z.opp]. rewrite Z.pow_0_r, Z.mul_1_r, Z.quot_1_r.
      by destruct s.
    + replace (Z.max (Z.pos k) 0) with (Z.pos k) by lia.
      replace (Z.max (- Z.pos k) 0) with 0 by lia.
      rewrite Z.pow_0_r, Z.quot_1_r, Z.shiftl_mul_pow2 by lia.
      destruct s; lia.
    + replace (Z.max (Z.neg k) 0) with 0 by lia.
      replace (Z.max (- Z.neg k) 0) with (Z.pos k) by lia.
      rewrite Z.pow_0_r, Z.mul_1_r, Z.shiftr_div_pow2 by lia.
      assert (Hpow : 0 < 2 ^ Z.pos k) by (apply Z.pow_pos_nonneg; lia).
      destruct s.
      * change (Z.neg m) with (- Z.pos m).
        rewrite Z.quot_opp_l by lia.
        rewrite Z.quot_div_nonneg by lia. reflexivity.
      * rewrite Z.quot_div_nonneg by lia. reflexivity.
Qed.

Lemma int_div_twenty (mp : float) :
  Float.ltb Float.twenty mp = true ->
  Float.int_div 20 mp = Ok (Float.div Float.twenty mp).
Proof.
  intros Hbig. unfold Float.int_div.
  replace (Float.of_int 20) with (Ok Float.twenty) by (vm_compute; reflexivity).
  cbn [mbind result_bind].
  destruct mp as [s|s| |s m e]; try reflexivity.
  by destruct s.
Qed.

Section PredownscaleProperties.

Context `{Platform}.

Lemma scaled_truncates (n : Z) (factor : float) (z : Z) :
  scaled n factor = Ok z ->
  exists x, Float.int_mul n factor = Ok x
            /\ z = Z.quot (Float.num x) (Float.den x).
Proof.
  unfold scaled. destruct (Float.int_mul n factor) as [x|e]; [|discriminate].
  cbn. intros Hz. exists x. split; [reflexivity|]. by apply to_int_truncates.
Qed.

(** C10. For a raster file whose megapixel count is computed as [mp]:
    when the file is larger than [MAX_FILE_SIZE] and [mp] exceeds 20, the
    image that enters the loop is the normalized image resized to its width
    and height times [pow(20 / mp, 0.5)], each converted by [int], which
    drops the fraction; when either condition fails it is the normalized
    image itself. For a pixel count below 2^62, [mp] exceeds 20 exactly
    when the raster has more than 20000000 pixels. The step is taken
    before the loop and not again: every save of the search is a resize of
    that one prepared image. *)
Theorem predownscale_once_before_search (fuel : nat) (input : File)
    (img0 : Image) (mp : float) :
  file_body input = Raster img0 ->
  let img := to_rgb (correct_image_orientation img0) in
  Float.int_truediv (width img * height img) 1000000 = Ok mp ->
  (file_size input > MAX_FILE_SIZE /\ Float.ltb Float.twenty mp = true ->
   let factor := libm_pow (Float.div Float.twenty mp) Float.half in
   prepare input =
     (new_width ← scaled (width img) factor;
      new_height ← scaled (height img) factor;
      Ok (resize new_width new_height img)))
  /\ (file_size input <= MAX_FILE_SIZE \/ Float.ltb Float.twenty mp = false ->
      prepare input = Ok img)
  /\ (0 <= width img * height img < 2 ^ 62 ->
      (Float.ltb Float.twenty mp = true
       <-> 20000000 < width img * height img))
  /\ (forall n factor z,
        scaled n factor = Ok z ->
        exists x, Float.int_mul n factor = Ok x
                  /\ z = Z.quot (Float.num x) (Float.den x))
  /\ (forall prepared saved res,
        prepare input = Ok prepared ->
        compress_image_adaptively fuel input = Some (saved, res) ->
        Forall (fun a => exists w h,
                  jpeg_image (at_file a) = resize w h prepared) saved).
Proof.
  intros Hbody img Hmp.
  assert (Hprep : prepare input = predownscale (file_size input) img).
  { unfold prepare, image_open. rewrite Hbody. reflexivity. }
  split_and!.
  - intros [Hsize Hbig] factor. rewrite Hprep. unfold predownscale.
    rewrite Hmp. cbn [mbind result_bind].
    assert (Hs : (file_size input >? MAX_FILE_SIZE) = true) by lia.
    rewrite Hs, Hbig. cbn [andb].
    rewrite (int_div_twenty mp Hbig). reflexivity.
  - intros Hnot. rewrite Hprep. unfold predownscale.
    rewrite Hmp. cbn [mbind result_bind].
    destruct Hnot as [Hsize|Hsmall].
    + assert (Hs : (file_size input >? MAX_FILE_SIZE) = false) by lia.
      by rewrite Hs.
    + rewrite Hsmall. by rewrite andb_false_r.
  - intros Hpixels. by apply megapixels_over_twenty.
  - apply scaled_truncates.
  - intros prepared saved res Hok Hrun.
    destruct (compress_sound fuel input saved res Hrun)
      as [(e & He & _) | (img' & Himg' & Hsearch)]; [congruence|].
    assert (img' = prepared) as -> by congruence.
    destruct (search_sound prepared fuel _ _ _ _ Hsearch) as (_ & Hcand & _).
    eapply Forall_impl; [exact Hcand|].
    intros a Ha. unfold encoded_from, candidate in Ha.
    destruct (scaled (width prepared) (at_resize a)) as [w|]; [|discriminate].
    destruct (scaled (height prepared) (at_resize a)) as [h|]; [|discriminate].
    cbn in Ha. injection Ha as Ha. exists w, h. by rewrite <- Ha.
Qed.

End PredownscaleProperties.

(** 30 megapixels in 40 MB are scaled to 4898 x 4082; exactly 20
    megapixels, or a small file, are left alone. *)
Lemma predownscale_once_before_search_witness :
  prepare (H := area_platform) (raster_file 40000000 6000 5000)
  = Ok (resize 4898 4082 (plain_image 6000 5000))
  /\ prepare (H := area_platform) (raster_file 40000000 5000 4000)
     = Ok (plain_image 5000 4000)
  /\ prepare (H := area_platform) (raster_file 1000 6000 5000)
     = Ok (plain_image 6000 5000).
Proof.
  split_and!.
  - destruct (predownscale_once_before_search (H := area_platform) 12
                (raster_file 40000000 6000 5000) (plain_image 6000 5000)
                (S754_finite false 8444249301319680 (-48)))
      as (Hyes & _); [reflexivity | vm_compute; reflexivity |].
    rewrite Hyes; [vm_compute; reflexivity|].
    split; [reflexivity | vm_compute; reflexivity].
  - vm_compute. reflexivity.
  - vm_compute. reflexivity.
Defined.

(** ** The horizontal tiler *)

Lemma slice_in_range {A : Type} (l : list A) (a b : Z) :
  0 <= a <= b -> b <= Z.of_nat (length l) ->
  slice l a b = firstn (Z.to_nat (b - a)) (skipn (Z.to_nat a) l).
Proof.
  intros Hab Hb. unfold slice, slice_bound.
  destruct (a <? 0) eqn:Ha; [lia|]. destruct (b <? 0) eqn:Hb0; [lia|].
  by rewrite !Z.min_l by lia.
Qed.

Lemma range_length (n : Z) : length (range n) = Z.to_nat n.
Proof. unfold range. by rewrite length_map, length_seq. Qed.

Lemma range_succ (n : Z) : 0 <= n -> range (n + 1) = (range n ++ [n])%list.
Proof.
  intros Hn. unfold range.
  replace (Z.to_nat (n + 1)) with (Z.to_nat n + 1)%nat by lia.
  rewrite seq_app, map_app. cbn. f_equal. f_equal. lia.
Qed.

Lemma range_bounds (n i : Z) : In i (range n) -> 0 <= i < n.
Proof.
  unfold range. rewrite in_map_iff. intros (k & <- & Hk).
  apply in_seq in Hk. lia.
Qed.

Lemma range_nth (n i : Z) :
  0 <= i < n -> nth_error (range n) (Z.to_nat i) = Some i.
Proof.
  intros Hi. unfold range.
  rewrite nth_error_map.
  rewrite (nth_error_nth' _ 0%nat) by (rewrite length_seq; lia).
  rewrite seq_nth by lia. cbn. f_equal. lia.
Qed.

(** Consecutive slices of one height put back together. *)
Lemma concat_equal_slices {A : Type} (l : list A) (t : Z) (n : nat) :
  0 <= t -> Z.of_nat n * t <= Z.of_nat (length l) ->
  concat (map (fun i => slice l (i * t) ((i + 1) * t)) (range (Z.of_nat n)))
  = firstn (Z.to_nat (Z.of_nat n * t)) l.
Proof.
  intros Ht. induction n as [|n IH]; intros Hn; [reflexivity|].
  replace (Z.of_nat (S n)) with (Z.of_nat n + 1) by lia.
  rewrite range_succ, map_app, concat_app by lia.
  rewrite IH by nia. cbn [map concat]. rewrite app_nil_r.
  rewrite slice_in_range by nia.
  replace (Z.to_nat ((Z.of_nat n + 1) * t - Z.of_nat n * t)) with (Z.to_nat t)
    by nia.
  rewrite take_take_drop. f_equal. nia.
Qed.

Lemma split_tiles (img : Array) (parts : Z) :
  parts <> 0 ->
  split_image_horizontally (Some img) parts
  = Ok (map (fun i =>
               rows_view img (i * (shape0 img / parts))
                 (if i =? parts - 1 then shape0 img
                  else (i + 1) * (shape0 img / parts)))
          (range parts)).
Proof.
  intros Hparts. unfold split_image_horizontally, tile_bounds.
  destruct (parts =? 0) eqn:E; [lia|]. reflexivity.
Qed.

(** The rows of the tiles, top to bottom, are the rows of the raster. *)
Lemma tiles_concat (img : Array) (parts : Z) :
  1 <= parts -> 0 <= shape0 img / parts ->
  (parts - 1) * (shape0 img / parts) <= shape0 img ->
  concat (map arr_rows
            (map (fun i =>
                    rows_view img (i * (shape0 img / parts))
                      (if i =? parts - 1 then shape0 img
                       else (i + 1) * (shape0 img / parts)))
               (range parts)))
  = arr_rows img.
Proof.
  intros Hparts Ht Hlast. set (t := shape0 img / parts) in *.
  assert (Hr : range parts = (range (parts - 1) ++ [parts - 1])%list).
  { rewrite <- range_succ by lia. f_equal. lia. }
  rewrite Hr, !map_app, concat_app.
  cbn [map concat]. rewrite app_nil_r, Z.eqb_refl.
  rewrite map_map.
  rewrite (map_ext_in _ (fun i => slice (arr_rows img) (i * t) ((i + 1) * t))).
  2:{ intros i Hi. apply range_bounds in Hi.
      destruct (i =? parts - 1) eqn:E; [lia|]. reflexivity. }
  replace (parts - 1) with (Z.of_nat (Z.to_nat (parts - 1))) at 1 by lia.
  unfold shape0 in *.
  rewrite concat_equal_slices by lia.
  cbn [rows_view arr_rows].
  rewrite slice_in_range by nia.
  replace (Z.of_nat (Z.to_nat (parts - 1))) with (parts - 1) by lia.
  rewrite (take_ge (drop (Z.to_nat ((parts - 1) * t)) (arr_rows img)))
    by (rewrite length_drop; lia).
  apply take_drop.
Qed.

(** C2. For a raster of [H] rows and a parts count [N] with 1 <= N <= H,
    the tiler returns [N] tiles. With [t = H / N] (floor), tile [i] shows
    the rows from [i * t] up to, not including, [(i + 1) * t], or [H] for
    the last tile; the interval is not empty and lies within the raster.
    Every tile has the width of the raster and looks into its buffer. The
    rows of the tiles, in order, are the rows of the raster: each row is in
    one tile, once. *)
Theorem tiles_partition_rows (img : Array) (N : Z) :
  1 <= N <= shape0 img ->
  let t := shape0 img / N in
  exists tiles,
    split_image_horizontally (Some img) N = Ok tiles
    /\ Z.of_nat (length tiles) = N
    /\ (forall i, 0 <= i < N ->
          let y1 := i * t in
          let y2 := if i <? N - 1 then (i + 1) * t else shape0 img in
          exists tile,
            nth_error tiles (Z.to_nat i) = Some tile
            /\ 0 <= y1 < y2 /\ y2 <= shape0 img
            /\ arr_rows tile
               = firstn (Z.to_nat (y2 - y1)) (skipn (Z.to_nat y1) (arr_rows img))
            /\ shape0 tile = y2 - y1
            /\ arr_width tile = arr_width img
            /\ arr_base tile = arr_base img)
    /\ concat (map arr_rows tiles) = arr_rows img.
Proof.
  intros HN t.
  assert (Ht : 1 <= t) by (apply Z.div_le_lower_bound; lia).
  assert (Hmul : N * t <= shape0 img) by (apply Z.mul_div_le; lia).
  eexists. split; [apply split_tiles; lia|]. split_and!.
  - rewrite length_map, range_length. lia.
  - intros i Hi y1 y2.
    eexists. split.
    { rewrite nth_error_map, (range_nth N i Hi). reflexivity. }
    fold t. subst y1 y2.
    assert (Hy : (if i =? N - 1 then shape0 img else (i + 1) * t)
                 = (if i <? N - 1 then (i + 1) * t else shape0 img)).
    { destruct (i =? N - 1) eqn:E1, (i <? N - 1) eqn:E2; lia. }
    rewrite Hy.
    assert (Hb : i * t < (if i <? N - 1 then (i + 1) * t else shape0 img)
                 /\ (if i <? N - 1 then (i + 1) * t else shape0 img)
                    <= shape0 img).
    { destruct (i <? N - 1) eqn:E; nia. }
    destruct Hb as [Hb1 Hb2].
    split_and!; try reflexivity; try lia.
    + cbn [rows_view arr_rows]. apply slice_in_range; unfold shape0 in *; lia.
    + unfold shape0 at 1. cbn [rows_view arr_rows].
      rewrite slice_in_range by (unfold shape0 in *; lia).
      rewrite length_firstn, length_skipn. unfold shape0 in *. lia.
  - apply tiles_concat; lia.
Qed.

(** 1000 rows of width 3000 in 4 parts: four tiles of 250 rows starting
    at rows 0, 250, 500 and 750. *)
Lemma tiles_partition_rows_witness :
  let img := mkArray (Decoded 0) (range 1000) 3000 in
  1 <= 4 <= shape0 img
  /\ exists tiles,
       split_image_horizontally (Some img) 4 = Ok tiles
       /\ map (fun tile => (hd_error (arr_rows tile), shape0 tile,
                            arr_width tile)) tiles
          = [(Some 0, 250, 3000); (Some 250, 250, 3000);
             (Some 500, 250, 3000); (Some 750, 250, 3000)]
       /\ concat (map arr_rows tiles) = arr_rows img.
Proof.
  intros img.
  assert (HN : 1 <= 4 <= shape0 img) by (vm_compute; split; discriminate).
  split; [exact HN|].
  destruct (tiles_partition_rows img 4 HN) as (tiles & Hsplit & _ & _ & Hcat).
  exists tiles. split; [exact Hsplit|]. split; [|exact Hcat].
  assert (Hrun : split_image_horizontally (Some img) 4
                 = Ok (map (fun i => rows_view img (i * 250)
                                       (if i =? 3 then 1000 else (i + 1) * 250))
                         [0; 1; 2; 3])) by (vm_compute; reflexivity).
  rewrite Hrun in Hsplit. injection Hsplit as <-.
  vm_compute. reflexivity.
Defined.

(** C6, as claimed, fails: three parts asked of a raster of two rows are
    not refused. The tiler returns three tiles, two of them without rows. *)
Lemma oversized_parts_not_rejected :
  let img := mkArray (Decoded 0) [0; 1] 5 in
  shape0 img < 3
  /\ split_image_horizontally (Some img) 3
     = Ok [mkArray (Decoded 0) [] 5; mkArray (Decoded 0) [] 5;
           mkArray (Decoded 0) [0; 1] 5]
  /\ ~ (exists e, split_image_horizontally (Some img) 3 = Raise e).
Proof.
  cbn zeta. split; [reflexivity|]. split; [reflexivity|].
  intros [e He]. vm_compute in He. discriminate.
Qed.

(** C6, amended. When the parts count [N] exceeds the number of rows, the
    tiler raises nothing: the tile height is 0, it returns [N] tiles, the
    first [N - 1] have the raster's width and no rows, and the last one is
    the whole raster. *)
Theorem oversized_parts_give_empty_tiles (img : Array) (N : Z) :
  shape0 img < N ->
  exists tiles,
    split_image_horizontally (Some img) N = Ok tiles
    /\ Z.of_nat (length tiles) = N
    /\ (forall i, 0 <= i < N - 1 ->
          nth_error tiles (Z.to_nat i)
          = Some (mkArray (arr_base img) [] (arr_width img)))
    /\ nth_error tiles (Z.to_nat (N - 1))
       = Some (mkArray (arr_base img) (arr_rows img) (arr_width img)).
Proof.
  intros HN.
  assert (H0 : 0 <= shape0 img) by (unfold shape0; lia).
  assert (Ht : shape0 img / N = 0) by (apply Z.div_small; lia).
  eexists. split; [apply split_tiles; lia|]. rewrite Ht. split_and!.
  - rewrite length_map, range_length. lia.
  - intros i Hi.
    rewrite nth_error_map, (range_nth N i) by lia. cbn [option_map].
    destruct (i =? N - 1) eqn:E; [lia|].
    unfold rows_view. rewrite slice_in_range by lia.
    replace (Z.to_nat ((i + 1) * 0 - i * 0)) with 0%nat by lia. reflexivity.
  - rewrite nth_error_map, (range_nth N (N - 1)) by lia. cbn [option_map].
    rewrite Z.eqb_refl. unfold rows_view.
    rewrite slice_in_range by (unfold shape0 in *; lia).
    replace (Z.to_nat ((N - 1) * 0)) with 0%nat by lia.
    replace (Z.to_nat (shape0 img - (N - 1) * 0))
      with (length (arr_rows img)) by (unfold shape0; lia).
    cbn [skipn]. rewrite firstn_all. reflexivity.
Qed.

(** Two rows in three parts. *)
Lemma oversized_parts_give_empty_tiles_witness :
  let img := mkArray (Decoded 0) [0; 1] 5 in
  shape0 img < 3
  /\ exists tiles,
       split_image_horizontally (Some img) 3 = Ok tiles
       /\ Z.of_nat (length tiles) = 3
       /\ nth_error tiles 0 = Some (mkArray (Decoded 0) [] 5)
       /\ nth_error tiles 2 = Some img.
Proof.
  intros img.
  assert (HN : shape0 img < 3) by reflexivity.
  split; [exact HN|].
  destruct (oversized_parts_give_empty_tiles img 3 HN)
    as (tiles & Hsplit & Hlen & Hfirst & Hlast).
  exists tiles. split_and!; auto.
  apply (Hfirst 0). lia.
Defined.

(** ** The single-file pipeline *)

Lemma names_a_file_spec (base_name : string) :
  names_a_file base_name <-> is_directory base_name = false.
Proof.
  unfold names_a_file, is_directory. rewrite !orb_false_iff.
  rewrite !String.eqb_neq. tauto.
Qed.

Lemma download_cases (bucket name base_name : string) (w : World) :
  (is_directory base_name = true
   /\ download bucket name base_name w = (Raise IsADirectoryError, w))
  \/ (is_directory base_name = false
      /\ exists f, get_object bucket name (storage w) = Some f
                   /\ download bucket name base_name w
                      = (Ok f, log (Downloaded bucket name) w))
  \/ (is_directory base_name = false
      /\ get_object bucket name (storage w) = None
      /\ download bucket name base_name w = (Raise NotFound, w)).
Proof.
  unfold download. destruct (is_directory base_name); [by left|].
  destruct (get_object bucket name (storage w)) as [f|].
  - right. left. split; [done|]. by exists f.
  - right. right. by split_and!.
Qed.

Section PipelineProperties.

Context `{Platform}.

(** What a finished run of the [try] body was: an exception before any
    upload, the early return on a foreign extension, or the full chain up
    to the upload, followed by the tracker read and write, each of which
    may raise. *)
Lemma process_single_try_inv (fuel : nat) (req : ProcessRequest) (w : World)
    (r : result Response) (w' : World) :
  process_single_try fuel req w = Some (r, w') ->
  (exists e, r = Raise e
             /\ (w' = w
                 \/ exists b, w' = log (Downloaded b (p_file_path req)) w))
  \/ (exists b local_file,
        r = Ok (mkResponse 200 (Skipped (basename (p_file_path req))))
        /\ w' = log (Downloaded b (p_file_path req)) w
        /\ image_for_tiling fuel
             (lower (splitext_ext (basename (p_file_path req)))) local_file
           = Some (Ok None))
  \/ (exists b p ob op local_file image tiles final_pdf,
        bucket_and_prefix (p_input_bucket req) = Ok (b, p)
        /\ bucket_and_prefix (p_output_bucket req) = Ok (ob, op)
        /\ get_object b (p_file_path req) (storage w) = Some local_file
        /\ image_for_tiling fuel
             (lower (splitext_ext (basename (p_file_path req)))) local_file
           = Some (Ok (Some image))
        /\ split_image_horizontally (imread image)
             (default 2 (p_horizontal_parts req)) = Ok tiles
        /\ tiles_to_pdf tiles = Ok final_pdf
        /\ names_a_file (basename (p_file_path req))
        /\ let w2 := upload ob (output_name op req) final_pdf
                       (log (Downloaded b (p_file_path req)) w) in
           (exists e, r = Raise e
                      /\ read_error (tracker w) = Some e /\ w' = w2)
           \/ (exists e, r = Raise e
                         /\ read_error (tracker w) = None
                         /\ write_error (tracker w) = Some e
                         /\ w' = log TrackerRead w2)
           \/ (r = Ok (mkResponse 200 (Procesado (p_file_path req)))
               /\ read_error (tracker w) = None
               /\ write_error (tracker w) = None
               /\ w' = write_tracker
                         (tracker_text (marked w ∪ {[ p_file_path req ]}))
                         (log TrackerRead w2))).
Proof.
  unfold process_single_try.
  destruct (bucket_and_prefix (p_input_bucket req)) as [[b p]|e] eqn:Hin.
  2:{ intros [= <- <-]. left. exists e. auto. }
  destruct (bucket_and_prefix (p_output_bucket req)) as [[ob op]|e] eqn:Hout.
  2:{ intros [= <- <-]. left. exists e. auto. }
  destruct (download_cases b (p_file_path req) (basename (p_file_path req)) w)
    as [(Hdir & ->) | [(Hdir & local_file & Hget & ->) | (Hdir & Hget & ->)]].
  1:{ intros [= <- <-]. left. exists IsADirectoryError. auto. }
  2:{ intros [= <- <-]. left. exists NotFound. auto. }
  destruct (image_for_tiling fuel _ local_file) as [[[image|]|e]|] eqn:Himg;
    [| | |discriminate].
  2:{ intros [= <- <-]. right. left. by exists b, local_file. }
  2:{ intros [= <- <-]. left. exists e. split; [done|]. right. by exists b. }
  destruct (split_image_horizontally (imread image) _) as [tiles|e] eqn:Hsplit.
  2:{ cbn. intros [= <- <-]. left. exists e. split; [done|]. right. by exists b. }
  cbn [mbind result_bind].
  destruct (tiles_to_pdf tiles) as [final_pdf|e] eqn:Hpdf.
  2:{ intros [= <- <-]. left. exists e. split; [done|]. right. by exists b. }
  fold (output_name op req).
  intros Hrun. right. right.
  exists b, p, ob, op, local_file, image, tiles, final_pdf.
  split_and!; [done.. | by apply names_a_file_spec |].
  cbn zeta. unfold load_tracker, update_tracker in Hrun.
  cbn [upload log tracker storage queue events read_error write_error] in Hrun.
  destruct (read_error (tracker w)) as [e|] eqn:Hread.
  { injection Hrun as <- <-. left. by exists e. }
  cbn [upload log tracker storage queue events read_error write_error] in Hrun.
  destruct (write_error (tracker w)) as [e|] eqn:Hwrite.
  { injection Hrun as <- <-. right. left. by exists e. }
  injection Hrun as <- <-. right. right. by split_and!.
Qed.

(** A run that reports the file as processed: the full chain, with a
    tracker that could be read and written. *)
Lemma process_single_done_inv (fuel : nat) (req : ProcessRequest) (w : World)
    (name : string) (w' : World) :
  process_single_try fuel req w
  = Some (Ok (mkResponse 200 (Procesado name)), w') ->
  exists b p ob op local_file image tiles final_pdf,
    bucket_and_prefix (p_input_bucket req) = Ok (b, p)
    /\ bucket_and_prefix (p_output_bucket req) = Ok (ob, op)
    /\ get_object b (p_file_path req) (storage w) = Some local_file
    /\ image_for_tiling fuel
         (lower (splitext_ext (basename (p_file_path req)))) local_file
       = Some (Ok (Some image))
    /\ split_image_horizontally (imread image)
         (default 2 (p_horizontal_parts req)) = Ok tiles
    /\ tiles_to_pdf tiles = Ok final_pdf
    /\ names_a_file (basename (p_file_path req))
    /\ read_error (tracker w) = None
    /\ write_error (tracker w) = None
    /\ name = p_file_path req
    /\ w' = write_tracker (tracker_text (marked w ∪ {[ p_file_path req ]}))
              (log TrackerRead
                 (upload ob (output_name op req) final_pdf
                    (log (Downloaded b (p_file_path req)) w))).
Proof.
  intros Hrun.
  destruct (process_single_try_inv fuel req w _ _ Hrun)
    as [(e & [=] & _)
       | [(b & lf & [=] & _)
         | (b & p & ob & op & lf & image & tiles & pdf & Hin & Hout & Hget
            & Himg & Hsplit & Hpdf & Hname
            & [(e & [=] & _) | [(e & [=] & _) | ([= ->] & Hr & Hw & ->)]])]].
  exists b, p, ob, op, lf, image, tiles, pdf. by split_and!.
Qed.




End PipelineProperties.



Lemma get_put_same (bucket name : string) (f : File)
    (l : list (string * string * File)) :
  get_object bucket name (put_object bucket name f l) = Some f.
Proof.
  induction l as [|[[b n] g] l IH]; cbn [put_object get_object].
  - by rewrite !String.eqb_refl.
  - destruct (String.eqb b bucket && String.eqb n name) eqn:E;
      cbn [get_object]; rewrite E; [reflexivity | exact IH].
Qed.

Section FormatDispatch.

Context `{Platform}.

Lemma compress_ok_fits (fuel : nat) (input : File) saved out :
  compress_image_adaptively fuel input = Some (saved, Ok out) ->
  jpeg_bytes out <= MAX_FILE_SIZE.
Proof.
  intros Hrun.
  destruct (compress_sound fuel input saved (Ok out) Hrun)
    as [(e & _ & _ & [=]) | (img & _ & Hsearch)].
  destruct (search_sound img fuel _ _ _ _ Hsearch)
    as (_ & _ & _ & earlier & last & _ & _ & Hfit & _).
  exact Hfit.
Qed.

(** The two ways an image reaches the tiler. *)
Lemma image_for_tiling_inv (fuel : nat) (ext : string) (local_file : File)
    (image : JpegFile) :
  image_for_tiling fuel ext local_file = Some (Ok (Some image)) ->
  (mem ext raster_extensions = true
   /\ exists saved,
        compress_image_adaptively fuel local_file = Some (saved, Ok image)
        /\ jpeg_bytes image <= MAX_FILE_SIZE)
  \/ (ext = ".pdf"
      /\ exists page rest,
           file_body local_file = Pdf (page :: rest)
           /\ image = save_jpeg page 75 None false).
Proof.
  unfold image_for_tiling.
  destruct (String.eqb ext ".pdf") eqn:Epdf.
  - apply String.eqb_eq in Epdf. intros Himg. right. split; [exact Epdf|].
    unfold extract_first_page_from_pdf, convert_from_path in Himg.
    destruct (file_body local_file) as [img|[|page rest]|]; try discriminate.
    exists page, rest. split; [reflexivity|].
    cbn in Himg. by injection Himg as <-.
  - destruct (mem ext raster_extensions) eqn:Emem; [|discriminate].
    destruct (compress_image_adaptively fuel local_file)
      as [[saved [out|e]]|] eqn:Hcomp; try discriminate.
    cbn. intros [= <-]. left. split; [reflexivity|].
    exists saved. split; [reflexivity|]. by eapply compress_ok_fits.
Qed.

(** C4, amended. A run of [process_single] that reports the file as
    processed downloaded it, produced the image for the tiler, tiled that
    image, assembled the tiles, uploaded the document and then wrote the
    tracker, in this order. For an extension of the raster allow-list the
    image is the compressor's result, at most [MAX_FILE_SIZE] bytes. For
    [.pdf] it is the first page saved as a JPEG with Pillow's defaults:
    the compressor is not called, and nothing bounds its size. *)
Theorem pipeline_stages_by_format (fuel : nat) (req : ProcessRequest)
    (w w' : World) :
  process_single_try fuel req w
  = Some (Ok (mkResponse 200 (Procesado (p_file_path req))), w') ->
  let ext := lower (splitext_ext (basename (p_file_path req))) in
  exists b ob name local_file image tiles final_pdf,
    get_object b (p_file_path req) (storage w) = Some local_file
    /\ ((mem ext raster_extensions = true
         /\ exists saved,
              compress_image_adaptively fuel local_file
              = Some (saved, Ok image)
              /\ jpeg_bytes image <= MAX_FILE_SIZE)
        \/ (ext = ".pdf"
            /\ exists page rest,
                 file_body local_file = Pdf (page :: rest)
                 /\ image = save_jpeg page 75 None false))
    /\ split_image_horizontally (imread image)
         (default 2 (p_horizontal_parts req)) = Ok tiles
    /\ tiles_to_pdf tiles = Ok final_pdf
    /\ get_object ob name (storage w') = Some final_pdf
    /\ events w'
       = (events w ++ [Downloaded b (p_file_path req); Uploaded ob name;
                       TrackerRead; TrackerWritten])%list.
Proof.
  intros Hrun ext.
  destruct (process_single_done_inv fuel req w _ _ Hrun)
    as (b & p & ob & op & lf & image & tiles & pdf
        & Hin & Hout & Hget & Himg & Hsplit & Hpdf & _ & _ & _ & _ & ->).
  exists b, ob, (output_name op req), lf, image, tiles, pdf.
  split_and!; auto.
  - by apply image_for_tiling_inv.
  - cbn. apply get_put_same.
  - cbn. by rewrite <- !app_assoc.
Qed.

End FormatDispatch.

(** C4, as claimed, fails for PDF input: a PDF whose first page encodes to
    37500000 bytes at the default quality goes to the tiler as it is, over
    the budget, and the run reports the file as processed. *)
Lemma pdf_reaches_tiler_over_budget :
  let file := pdf_file 500 4000 4000 in
  exists image w',
    image_for_tiling (H := area_platform) 12 ".pdf" file
    = Some (Ok (Some image))
    /\ jpeg_bytes image = 37500000
    /\ MAX_FILE_SIZE < jpeg_bytes image
    /\ process_single (H := area_platform) 12 (request_for "maps/plan.pdf")
         (one_object_world "maps/plan.pdf" file None)
       = Some (mkResponse 200 (Procesado "maps/plan.pdf"), w')
    /\ events w' = [Downloaded "in-bucket" "maps/plan.pdf";
                    Uploaded "out-bucket" "tiles/plan_tiles.pdf";
                    TrackerRead; TrackerWritten].
Proof.
  cbn zeta. eexists _, _.
  split; [vm_compute; reflexivity|].
  split; [reflexivity|]. split; [reflexivity|].
  split; [vm_compute; reflexivity|]. reflexivity.
Qed.

(** A PNG that fits after two steps is compressed, tiled and uploaded. *)
Lemma pipeline_stages_by_format_witness :
  let req := request_for "maps/a.png" in
  let w := one_object_world "maps/a.png" (raster_file 500 3400 3400) None in
  exists w' image final_pdf,
    process_single_try (H := area_platform) 12 req w
    = Some (Ok (mkResponse 200 (Procesado "maps/a.png")), w')
    /\ jpeg_bytes image <= MAX_FILE_SIZE
    /\ get_object "out-bucket" "tiles/a_tiles.pdf" (storage w') = Some final_pdf.
Proof.
  intros req w.
  destruct (process_single_try (H := area_platform) 12 req w)
    as [[r w']|] eqn:Hrun; [|vm_compute in Hrun; discriminate].
  assert (Hr : r = Ok (mkResponse 200 (Procesado "maps/a.png"))).
  { vm_compute in Hrun. by injection Hrun as <- _. }
  subst r.
  destruct (pipeline_stages_by_format (H := area_platform) 12 req w w' Hrun)
    as (b & ob & name & lf & image & tiles & pdf
        & Hget & Hstage & Hsplit & Hpdf & Hout & Hev).
  assert (Hnames : ob = "out-bucket" /\ name = "tiles/a_tiles.pdf").
  { vm_compute in Hrun. injection Hrun as <-. cbn in Hev.
    injection Hev as _ Hob Hname. by subst. }
  destruct Hnames as [-> ->].
  destruct Hstage as [(_ & saved & _ & Hfit) | (Hext & _)];
    [|vm_compute in Hext; discriminate].
  exists w', image, pdf. by split_and!.
Defined.


(** ** Deduplication against the tracker *)

Lemma create_tasks_effect (tasks : list Task) :
  forall w,
    let w' := fold_left (fun w t => create_task t w) tasks w in
    storage w' = storage w
    /\ tracker w' = tracker w
    /\ queue w' = (queue w ++ tasks)%list
    /\ events w' = (events w ++ map TaskCreated tasks)%list.
Proof.
  induction tasks as [|t tasks IH]; intros w; cbn zeta.
  - cbn. by rewrite !app_nil_r.
  - cbn [fold_left map]. destruct (IH (create_task t w)) as (Hs & Ht & Hq & He).
    rewrite Hs, Ht, Hq, He. cbn. rewrite <- !app_assoc. by split_and!.
Qed.

Lemma Forall_slice {A : Type} (P : A -> Prop) (l : list A) (a b : Z) :
  Forall P l -> Forall P (slice l a b).
Proof. intros Hl. unfold slice. by apply Forall_take, Forall_drop. Qed.





(** * Further properties *)

(** ** The tiler on every parts count *)

(** X1. For every parts count of at least 1, whether or not it exceeds
    the number of rows, the tiler returns that many tiles, each of the
    raster's width and on its buffer, and the rows of the tiles in order
    are the rows of the raster: no row is lost or shown twice. *)
Theorem tiles_cover_rows_for_any_count (img : Array) (N : Z) :
  1 <= N ->
  exists tiles,
    split_image_horizontally (Some img) N = Ok tiles
    /\ Z.of_nat (length tiles) = N
    /\ concat (map arr_rows tiles) = arr_rows img
    /\ Forall (fun tile => arr_width tile = arr_width img
                           /\ arr_base tile = arr_base img) tiles.
Proof.
  intros HN.
  assert (H0 : 0 <= shape0 img) by (unfold shape0; lia).
  assert (Ht : 0 <= shape0 img / N) by (apply Z.div_pos; lia).
  assert (Hmul : N * (shape0 img / N) <= shape0 img)
    by (apply Z.mul_div_le; lia).
  eexists. split; [apply split_tiles; lia|]. split_and!.
  - rewrite length_map, range_length. lia.
  - apply tiles_concat; nia.
  - apply Forall_map, Forall_forall. intros i _. by split.
Qed.

(** Three rows in five parts. *)
Lemma tiles_cover_rows_for_any_count_witness :
  let img := mkArray (Decoded 0) [0; 1; 2] 7 in
  1 <= 5
  /\ exists tiles,
       split_image_horizontally (Some img) 5 = Ok tiles
       /\ Z.of_nat (length tiles) = 5
       /\ concat (map arr_rows tiles) = [0; 1; 2].
Proof.
  intros img. assert (HN : 1 <= 5) by lia. split; [exact HN|].
  destruct (tiles_cover_rows_for_any_count img 5 HN)
    as (tiles & Hsplit & Hlen & Hcat & _).
  exists tiles. by split_and!.
Defined.

(** X2. The tiler raises in two cases only: [AttributeError] when the
    image could not be read, [ZeroDivisionError] for a parts count of 0.
    A negative parts count is not an error: the loop body never runs and
    the result is the empty list. *)
Theorem tiler_degenerate_parts (img : Array) :
  (forall N, split_image_horizontally None N = Raise AttributeError)
  /\ split_image_horizontally (Some img) 0 = Raise ZeroDivisionError
  /\ (forall N, N < 0 -> split_image_horizontally (Some img) N = Ok [])
  /\ (forall N e, split_image_horizontally (Some img) N = Raise e -> N = 0).
Proof.
  split_and!.
  - reflexivity.
  - reflexivity.
  - intros N HN. rewrite split_tiles by lia. unfold range.
    replace (Z.to_nat N) with 0%nat by lia. reflexivity.
  - intros N e. destruct (Z.eq_dec N 0) as [->|HN]; [done|].
    rewrite split_tiles by exact HN. discriminate.
Qed.

Lemma tiler_degenerate_parts_witness :
  split_image_horizontally (Some (mkArray (Decoded 0) [0; 1; 2] 7)) (-2) = Ok [].
Proof.
  apply (tiler_degenerate_parts (mkArray (Decoded 0) [0; 1; 2] 7)). lia.
Defined.

Lemma map_const_repeat {A B : Type} (b : B) (l : list A) :
  map (fun _ => b) l = repeat b (length l).
Proof. induction l as [|a l IH]; cbn; [reflexivity | by rewrite IH]. Qed.

(** The heights of the tiles, for any parts count of at least 1. *)
Lemma split_heights (img : Array) (N : Z) :
  1 <= N ->
  map shape0
    (map (fun i =>
            rows_view img (i * (shape0 img / N))
              (if i =? N - 1 then shape0 img else (i + 1) * (shape0 img / N)))
       (range N))
  = (repeat (shape0 img / N) (Z.to_nat (N - 1))
     ++ [shape0 img / N + shape0 img mod N])%list.
Proof.
  intros HN.
  assert (H0 : 0 <= shape0 img) by (unfold shape0; lia).
  assert (Ht : 0 <= shape0 img / N) by (apply Z.div_pos; lia).
  assert (Hmul : N * (shape0 img / N) <= shape0 img)
    by (apply Z.mul_div_le; lia).
  set (t := shape0 img / N) in *.
  assert (Hr : range N = (range (N - 1) ++ [N - 1])%list).
  { rewrite <- range_succ by lia. f_equal. lia. }
  rewrite Hr, !map_app. cbn [map]. rewrite Z.eqb_refl. f_equal.
  - rewrite map_map.
    rewrite (map_ext_in _ (fun _ => t)).
    + by rewrite map_const_repeat, range_length.
    + intros i Hi. apply range_bounds in Hi.
      destruct (i =? N - 1) eqn:E; [lia|].
      unfold shape0 at 1. cbn [rows_view arr_rows].
      rewrite slice_in_range by (unfold shape0 in *; nia).
      rewrite length_take, length_drop. unfold shape0 in *. nia.
  - f_equal. unfold shape0 at 1. cbn [rows_view arr_rows].
    rewrite slice_in_range by (unfold shape0 in *; nia).
    rewrite length_take, length_drop.
    rewrite (Z.mod_eq (shape0 img) N) by lia. fold t.
    unfold shape0 in *. nia.
Qed.

(** X3. For every parts count [N] of at least 1 the tile heights are
    [H / N] for the first [N - 1] tiles and [H / N + H mod N] for the last:
    the last tile takes the whole remainder, which is less than [N], and
    when [N] divides [H] all tiles have the same height. *)
Theorem tile_heights (img : Array) (N : Z) :
  1 <= N ->
  exists tiles,
    split_image_horizontally (Some img) N = Ok tiles
    /\ map shape0 tiles
       = (repeat (shape0 img / N) (Z.to_nat (N - 1))
          ++ [shape0 img / N + shape0 img mod N])%list
    /\ 0 <= shape0 img mod N < N.
Proof.
  intros HN.
  eexists. split; [apply split_tiles; lia|].
  split; [by apply split_heights | apply Z.mod_pos_bound; lia].
Qed.

(** 1003 rows in 4 parts: 250, 250, 250 and 253 rows. *)
Lemma tile_heights_witness :
  let img := mkArray (Decoded 0) (range 1003) 3000 in
  1 <= 4
  /\ exists tiles,
       split_image_horizontally (Some img) 4 = Ok tiles
       /\ map shape0 tiles = [250; 250; 250; 253].
Proof.
  intros img. assert (HN : 1 <= 4) by lia. split; [exact HN|].
  destruct (tile_heights img 4 HN) as (tiles & Hsplit & Hh & _).
  exists tiles. split; [exact Hsplit|]. rewrite Hh. vm_compute. reflexivity.
Defined.

(** ** The assembler *)

Lemma pages_of_tiles_shape (tiles : list Array) :
  forall pages,
    pages_of_tiles tiles = Ok pages ->
    Forall2 page_shows tiles pages
    /\ Forall (fun tile => 0 < shape0 tile /\ 0 < arr_width tile) tiles.
Proof.
  induction tiles as [|tile tiles IH]; intros pages Hpages.
  - cbn in Hpages. injection Hpages as <-. split; constructor.
  - cbn [pages_of_tiles] in Hpages. unfold page_of_tile in Hpages.
    destruct ((shape0 tile =? 0) || (arr_width tile <=? 0)) eqn:Hempty;
      [discriminate|].
    cbn [mbind result_bind] in Hpages.
    destruct (pages_of_tiles tiles) as [rest|e]; [|discriminate].
    cbn [mbind result_bind] in Hpages. injection Hpages as <-.
    destruct (IH rest eq_refl) as [IH1 IH2].
    apply orb_false_iff in Hempty as [Hrows Hwidth].
    assert (0 <= shape0 tile) by (unfold shape0; lia).
    split; constructor; auto; [by split_and! | lia].
Qed.

Lemma pages_of_nonempty_tiles (tiles : list Array) :
  Forall (fun tile => 0 < shape0 tile /\ 0 < arr_width tile) tiles ->
  exists pages, pages_of_tiles tiles = Ok pages.
Proof.
  induction 1 as [|tile tiles [Hrows Hwidth] _ [rest IH]].
  - by exists [].
  - cbn [pages_of_tiles]. unfold page_of_tile.
    destruct ((shape0 tile =? 0) || (arr_width tile <=? 0)) eqn:Hempty.
    { apply orb_true_iff in Hempty as [E|E]; lia. }
    cbn [mbind result_bind]. rewrite IH. by eexists.
Qed.

Section AssemblerProperties.

Context `{Platform}.

(** X4. A document that [tiles_to_pdf] writes has one page per tile, in
    the order of the tiles; each page has its tile's width and height, is
    in mode RGB and shows the tile's rows. The recorded size is the one
    the platform gives for these pages. *)
Theorem document_has_one_page_per_tile (tiles : list Array) (doc : File) :
  tiles_to_pdf tiles = Ok doc ->
  exists pages,
    file_body doc = Pdf pages
    /\ file_size doc = pdf_size pages
    /\ length pages = length tiles
    /\ Forall2 page_shows tiles pages.
Proof.
  unfold tiles_to_pdf.
  destruct (pages_of_tiles tiles) as [pages|e] eqn:Hpages; [|discriminate].
  cbn. intros [= <-].
  destruct (pages_of_tiles_shape tiles pages Hpages) as [Hshape _].
  exists pages. split_and!; auto.
  symmetry. by eapply Forall2_length.
Qed.

(** X5. Tiling and assembling compose: a raster of [H] rows and positive
    width [W], split into [N] parts with 1 <= N <= H, always assembles, to
    a document of [N] pages, each [W] wide, whose heights add up to [H]. *)
Theorem tiled_document_keeps_extent (img : Array) (N : Z) :
  1 <= N <= shape0 img -> 0 < arr_width img ->
  exists tiles doc pages,
    split_image_horizontally (Some img) N = Ok tiles
    /\ tiles_to_pdf tiles = Ok doc
    /\ file_body doc = Pdf pages
    /\ Z.of_nat (length pages) = N
    /\ Forall (fun page => width page = arr_width img) pages
    /\ fold_right Z.add 0 (map height pages) = shape0 img.
Proof.
  intros HN HW.
  pose proof (split_tiles img N ltac:(lia)) as Hsplit.
  pose proof (split_heights img N ltac:(lia)) as Hheights.
  set (tiles := map _ (range N)) in *.
  assert (Hw : Forall (fun tile => arr_width tile = arr_width img) tiles)
    by (apply Forall_map, Forall_forall; by intros i _).
  assert (Ht : 1 <= shape0 img / N) by (apply Z.div_le_lower_bound; lia).
  pose proof (Z.mod_pos_bound (shape0 img) N ltac:(lia)) as Hmod.
  assert (Hnonempty :
            Forall (fun tile => 0 < shape0 tile /\ 0 < arr_width tile) tiles).
  { apply Forall_forall. intros tile Hin. split.
    - assert (Hs : shape0 tile ∈ map shape0 tiles)
        by (apply list_elem_of_In, in_map, list_elem_of_In, Hin).
      rewrite Hheights in Hs. apply list_elem_of_In, in_app_or in Hs.
      destruct Hs as [Hs|[<-|[]]]; [apply repeat_spec in Hs|]; lia.
    - rewrite Forall_forall in Hw. rewrite (Hw tile Hin). exact HW. }
  destruct (pages_of_nonempty_tiles tiles Hnonempty) as [pages Hpages].
  destruct (pages_of_tiles_shape tiles pages Hpages) as [Hshape _].
  exists tiles, {| file_size := pdf_size pages; file_body := Pdf pages |}, pages.
  split_and!; auto.
  - unfold tiles_to_pdf. by rewrite Hpages.
  - rewrite <- (Forall2_length _ _ _ Hshape).
    rewrite <- (length_map shape0), Hheights, length_app, repeat_length.
    cbn. lia.
  - clear -Hshape Hw. induction Hshape as [|tile page tiles pages Hp _ IH];
      [constructor|].
    apply Forall_cons in Hw as [Hw1 Hw2].
    constructor; [|by apply IH].
    destruct Hp as (-> & _). exact Hw1.
  - assert (Hmap : map height pages = map shape0 tiles).
    { clear -Hshape. induction Hshape as [|tile page tiles pages Hp _ IH];
        [reflexivity|].
      cbn. destruct Hp as (_ & -> & _). by rewrite IH. }
    rewrite Hmap, Hheights, fold_right_app. cbn [fold_right].
    rewrite Z.add_0_r.
    assert (Hsum : forall n t x,
               fold_right Z.add x (repeat t n) = Z.of_nat n * t + x).
    { induction n as [|n IHn]; intros t x; cbn [repeat fold_right]; [lia|].
      rewrite IHn. lia. }
    rewrite Hsum, (Z.mod_eq (shape0 img) N), Z2Nat.id by lia. ring.
Qed.

End AssemblerProperties.

(** 1003 rows of width 3000 in 4 parts. *)
Lemma tiled_document_keeps_extent_witness :
  let img := mkArray (Decoded 0) (range 1003) 3000 in
  exists doc pages,
    (tiles ← split_image_horizontally (Some img) 4;
     tiles_to_pdf (H := area_platform) tiles) = Ok doc
    /\ file_body doc = Pdf pages
    /\ map height pages = [250; 250; 250; 253].
Proof.
  intros img.
  destruct (tiled_document_keeps_extent (H := area_platform) img 4)
    as (tiles & doc & pages & Hsplit & Hdoc & Hbody & _);
    [vm_compute; split; discriminate | reflexivity |].
  exists doc, pages. rewrite Hsplit. cbn [mbind result_bind].
  split; [exact Hdoc|]. split; [exact Hbody|].
  assert (Hrun : tiles_to_pdf (H := area_platform) tiles
                 = (tiles' ← split_image_horizontally (Some img) 4;
                    tiles_to_pdf (H := area_platform) tiles'))
    by (by rewrite Hsplit).
  rewrite Hrun in Hdoc. vm_compute in Hdoc. injection Hdoc as <-.
  injection Hbody as <-. reflexivity.
Defined.

(** Two tiles of a 3-row raster. *)
Lemma document_has_one_page_per_tile_witness :
  let tiles := [mkArray (Decoded 0) [0] 7; mkArray (Decoded 0) [1; 2] 7] in
  exists doc pages,
    tiles_to_pdf (H := area_platform) tiles = Ok doc
    /\ file_body doc = Pdf pages
    /\ length pages = 2%nat.
Proof.
  intros tiles.
  assert (Hrun : exists doc, tiles_to_pdf (H := area_platform) tiles = Ok doc)
    by (eexists; vm_compute; reflexivity).
  destruct Hrun as [doc Hrun].
  destruct (document_has_one_page_per_tile (H := area_platform) tiles doc Hrun)
    as (pages & Hbody & _ & Hlen & _).
  exists doc, pages. by split_and!.
Defined.

(** ** What the compressor writes *)

Lemma the_schedule_qualities :
  Forall (fun p => fst p = 95 \/ fst p = 90) the_schedule.
Proof.
  apply Forall_forall. intros p Hp. apply list_elem_of_In in Hp.
  vm_compute in Hp.
  repeat (destruct Hp as [<-|Hp]; [cbn; auto|]). destruct Hp.
Qed.

Section CompressorOutput.

Context `{Platform}.

Lemma prepare_mode (input : File) (img : Image) :
  prepare input = Ok img -> mode img = "RGB".
Proof.
  unfold prepare, image_open.
  destruct (file_body input) as [img0| |]; try discriminate.
  cbn [mbind result_bind]. unfold predownscale.
  set (rgb := to_rgb (correct_image_orientation img0)).
  assert (Hrgb : mode rgb = "RGB") by apply to_rgb_mode.
  destruct (Float.int_truediv _ _) as [mp|e]; [|discriminate].
  cbn [mbind result_bind].
  destruct ((file_size input >? MAX_FILE_SIZE) && Float.ltb Float.twenty mp).
  - destruct (Float.int_div 20 mp) as [ratio|e]; [|discriminate].
    cbn [mbind result_bind].
    destruct (scaled (width rgb) _) as [w|e]; [|discriminate].
    cbn [mbind result_bind].
    destruct (scaled (height rgb) _) as [h|e]; [|discriminate].
    cbn [mbind result_bind]. by intros [= <-].
  - by intros [= <-].
Qed.

(** X6. Every file the compressor saves, the returned one included, is
    written at quality 95 or 90 (never below [min_quality]), with the
    target DPI as metadata, with [optimize], from an image in mode RGB. *)
Theorem saves_keep_quality_floor (fuel : nat) (input : File)
    (saved : list Attempt) (res : result JpegFile) :
  compress_image_adaptively fuel input = Some (saved, res) ->
  Forall (fun a => loop_save (at_file a)
                   /\ jpeg_quality (at_file a) = at_quality a
                   /\ min_quality <= at_quality a) saved
  /\ (forall out, res = Ok out -> loop_save out).
Proof.
  intros Hrun.
  destruct (compress_sound fuel input saved res Hrun)
    as [(e & _ & -> & ->) | (img & Hprep & Hsearch)].
  { split; [constructor | discriminate]. }
  pose proof (prepare_mode input img Hprep) as Hmode.
  destruct (search_sound img fuel _ _ _ _ Hsearch)
    as (Hparams & Hcand & Hlen & Hres).
  rewrite (schedule_prefix_of_the_schedule fuel _ Hlen) in Hparams.
  assert (Hq : Forall (fun a => at_quality a = 95 \/ at_quality a = 90) saved).
  { assert (Hq' : Forall (fun p => fst p = 95 \/ fst p = 90)
                    (map attempt_params saved)).
    { rewrite Hparams. apply Forall_take, the_schedule_qualities. }
    rewrite Forall_map in Hq'. exact Hq'. }
  assert (Hall : Forall (fun a => loop_save (at_file a)
                                  /\ jpeg_quality (at_file a) = at_quality a
                                  /\ min_quality <= at_quality a) saved).
  { rewrite Forall_forall in Hq, Hcand. apply Forall_forall. intros a Ha.
    specialize (Hq a Ha). specialize (Hcand a Ha).
    unfold encoded_from, candidate in Hcand.
    destruct (scaled (width img) (at_resize a)) as [w|]; [|discriminate].
    destruct (scaled (height img) (at_resize a)) as [h|]; [|discriminate].
    cbn in Hcand. injection Hcand as Hfile. rewrite <- Hfile.
    unfold loop_save, min_quality. cbn. split_and!; auto; lia. }
  split; [exact Hall|].
  intros out ->. destruct Hres as (earlier & last & -> & <- & _).
  apply Forall_app in Hall as [_ Hlast].
  apply Forall_cons in Hlast as [(Hsave & _) _]. exact Hsave.
Qed.

End CompressorOutput.

(** A one-bit scan that fits at the third candidate. *)
Lemma saves_keep_quality_floor_witness :
  exists saved out,
    compress_image_adaptively (H := area_platform) 12 (bilevel_scan 3400 3400)
    = Some (saved, Ok out)
    /\ loop_save out.
Proof.
  assert (Hrun : exists saved out,
            compress_image_adaptively (H := area_platform) 12
              (bilevel_scan 3400 3400) = Some (saved, Ok out))
    by (eexists _, _; vm_compute; reflexivity).
  destruct Hrun as (saved & out & Hrun).
  exists saved, out. split; [exact Hrun|].
  by apply (saves_keep_quality_floor (H := area_platform) 12 _ _ _ Hrun).
Defined.

(** ** The orientation normalizer and the size of the image *)

Lemma correct_image_orientation_cases (img : Image) :
  correct_image_orientation img = img
  \/ correct_image_orientation img = rotate 180 img
  \/ correct_image_orientation img = rotate 270 img
  \/ correct_image_orientation img = rotate 90 img.
Proof.
  unfold correct_image_orientation.
  destruct (orientation_key TAGS None); [|by left].
  destruct (getexif img) as [| |exif]; try by left.
  destruct (bool_decide (exif = ∅)); [by left|].
  unfold rotation_for.
  repeat match goal with
         | |- context [match ?x with _ => _ end] => destruct x
         end; cbn [apply_rotation]; auto.
Qed.

(** X7. The orientation correction never changes the number of pixels or
    the mode: it keeps the two sides or swaps them. It swaps them when the
    EXIF dict holds 6 or 8 under the orientation key, and keeps them for
    3. *)
Theorem orientation_keeps_pixel_count (img : Image) :
  let out := correct_image_orientation img in
  width out * height out = width img * height img
  /\ mode out = mode img
  /\ ((width out = width img /\ height out = height img)
      \/ (width out = height img /\ height out = width img))
  /\ (forall exif n,
        getexif img = ExifDict exif -> exif !! 274 = Some (ExifInt n) ->
        (n = 6 \/ n = 8 -> width out = height img /\ height out = width img)
        /\ (n = 3 -> width out = width img /\ height out = height img)).
Proof.
  cbn zeta. split_and!.
  - destruct (correct_image_orientation_cases img) as [-> | [-> | [-> | ->]]];
      unfold rotate; cbn [width height]; try lia;
      match goal with
      | |- context [?a mod 180 =? 90] =>
          let b := eval vm_compute in (a mod 180 =? 90) in
          change (a mod 180 =? 90) with b
      end; cbv iota; lia.
  - by destruct (correct_image_orientation_cases img) as [-> | [-> | [-> | ->]]].
  - destruct (correct_image_orientation_cases img) as [-> | [-> | [-> | ->]]];
      unfold rotate; cbn [width height]; auto;
      match goal with
      | |- context [?a mod 180 =? 90] =>
          let b := eval vm_compute in (a mod 180 =? 90) in
          change (a mod 180 =? 90) with b
      end; cbv iota; auto.
  - intros exif n Hexif Hn. unfold correct_image_orientation.
    change (orientation_key TAGS None) with (Some 274).
    rewrite Hexif.
    destruct (bool_decide (exif = ∅)) eqn:Hempty.
    { apply bool_decide_eq_true in Hempty. subst exif.
      by rewrite lookup_empty in Hn. }
    rewrite Hn. split.
    + intros [-> | ->]; by vm_compute.
    + intros ->. by vm_compute.
Qed.

(** A 4000 x 3000 photo taken with the camera turned. *)
Lemma orientation_keeps_pixel_count_witness :
  let img := {| width := 4000; height := 3000; mode := "RGB";
                getexif := ExifDict {[ 274 := ExifInt 6 ]};
                data := Decoded 0 |} in
  width (correct_image_orientation img) = 3000
  /\ height (correct_image_orientation img) = 4000.
Proof.
  intros img.
  apply (proj1 (proj2 (proj2 (proj2 (orientation_keeps_pixel_count img)))
                 {[ 274 := ExifInt 6 ]} 6 eq_refl eq_refl)).
  by left.
Defined.
(** ** Storage *)

Lemma same_key (b n bucket name : string) :
  String.eqb b bucket && String.eqb n name = true <-> b = bucket /\ n = name.
Proof. by rewrite andb_true_iff, !String.eqb_eq. Qed.

Lemma get_put_other (bucket name : string) (f : File) (b n : string)
    (l : list (string * string * File)) :
  (b, n) <> (bucket, name) ->
  get_object b n (put_object bucket name f l) = get_object b n l.
Proof.
  intros Hne. induction l as [|[[b0 n0] g] l IH]; cbn [put_object get_object].
  - destruct (String.eqb bucket b && String.eqb name n) eqn:E; [|reflexivity].
    apply same_key in E as [-> ->]. done.
  - destruct (String.eqb b0 bucket && String.eqb n0 name) eqn:E1;
      cbn [get_object].
    + apply same_key in E1 as [-> ->].
      destruct (String.eqb bucket b && String.eqb name n) eqn:E2; [|reflexivity].
      apply same_key in E2 as [-> ->]. done.
    + destruct (String.eqb b0 b && String.eqb n0 n); [reflexivity | exact IH].
Qed.

Lemma put_put_same (bucket name : string) (f : File)
    (l : list (string * string * File)) :
  put_object bucket name f (put_object bucket name f l)
  = put_object bucket name f l.
Proof.
  induction l as [|[[b0 n0] g] l IH]; cbn [put_object].
  - by rewrite !String.eqb_refl.
  - destruct (String.eqb b0 bucket && String.eqb n0 name) eqn:E;
      cbn [put_object]; rewrite E; [reflexivity | by rewrite IH].
Qed.

Lemma put_keeps_objects (bucket name : string) (f : File) (b n : string)
    (l : list (string * string * File)) :
  is_Some (get_object b n l) ->
  is_Some (get_object b n (put_object bucket name f l)).
Proof.
  intros Hsome.
  destruct (decide ((b, n) = (bucket, name))) as [[= -> ->]|Hne].
  - rewrite get_put_same. by eexists.
  - by rewrite get_put_other.
Qed.

(** ** Strings *)

Lemma string_app_cons (x : ascii) (a b : string) :
  String x a ++ b = String x (a ++ b).
Proof. reflexivity. Qed.

Lemma string_app_nil (b : string) : EmptyString ++ b = b.
Proof. reflexivity. Qed.

Lemma has_char_app (c : ascii) (a b : string) :
  has_char c (a ++ b) = has_char c a || has_char c b.
Proof.
  induction a as [|x a IH]; [reflexivity|].
  rewrite string_app_cons. cbn [has_char]. by rewrite IH, orb_assoc.
Qed.

Lemma substring_all (s : string) : String.substring 0 (String.length s) s = s.
Proof. induction s as [|x s IH]; cbn; [reflexivity | by rewrite IH]. Qed.

Lemma substring_app_head (a s : string) :
  String.substring 0 (String.length a) (a ++ s) = a.
Proof.
  induction a as [|x a IH]; [by destruct s|].
  rewrite string_app_cons. cbn. by rewrite IH.
Qed.

Lemma substring_app_skip (a s : string) (m : nat) :
  String.substring (String.length a) m (a ++ s) = String.substring 0 m s.
Proof.
  induction a as [|x a IH]; [reflexivity|]. rewrite string_app_cons. exact IH.
Qed.

Lemma string_length_app (a b : string) :
  String.length (a ++ b) = (String.length a + String.length b)%nat.
Proof.
  induction a as [|x a IH]; [reflexivity|]. rewrite string_app_cons. cbn.
  by rewrite IH.
Qed.

Lemma tail_from_app (a s : string) :
  tail_from (String.length a) (a ++ s) = s.
Proof.
  unfold tail_from. rewrite string_length_app, substring_app_skip.
  replace (String.length a + String.length s - String.length a)%nat
    with (String.length s) by lia.
  apply substring_all.
Qed.

Lemma prefix_char (c x : ascii) (s : string) :
  String.prefix (String c EmptyString) (String x s) = Ascii.eqb x c.
Proof.
  cbn. destruct (ascii_dec c x) as [->|Hne].
  - rewrite Ascii.eqb_refl. by destruct s.
  - symmetry. apply Ascii.eqb_neq. congruence.
Qed.

Lemma index_char_none (c : ascii) (s : string) :
  has_char c s = false -> String.index 0 (String c EmptyString) s = None.
Proof.
  induction s as [|x s IH]; intros Hno; [reflexivity|].
  cbn [has_char] in Hno. apply orb_false_iff in Hno as [Hx Hs].
  cbn [String.index]. rewrite prefix_char, Hx, (IH Hs). reflexivity.
Qed.

Lemma index_char_first (c : ascii) (a b : string) :
  has_char c a = false ->
  String.index 0 (String c EmptyString) (a ++ String c b)
  = Some (String.length a).
Proof.
  induction a as [|x a IH]; intros Hno.
  - rewrite string_app_nil. cbn [String.index].
    by rewrite prefix_char, Ascii.eqb_refl.
  - cbn [has_char] in Hno. apply orb_false_iff in Hno as [Hx Ha].
    rewrite string_app_cons. cbn [String.index String.length].
    rewrite prefix_char, Hx, (IH Ha). reflexivity.
Qed.

(** A string without [c], or its part before the first [c] and the rest. *)
Lemma first_char_split (c : ascii) (s : string) :
  has_char c s = false
  \/ exists a b, s = a ++ String c b /\ has_char c a = false.
Proof.
  induction s as [|x s IH]; [by left|].
  destruct (Ascii.eqb x c) eqn:Hx.
  - right. apply Ascii.eqb_eq in Hx as ->. by exists "", s.
  - destruct IH as [Hno | (a & b & -> & Ha)].
    + left. cbn. by rewrite Hx.
    + right. exists (String x a), b. split; [reflexivity|].
      cbn. by rewrite Hx.
Qed.

Lemma tail_from_after_char (c : ascii) (a b : string) :
  tail_from (S (String.length a)) (a ++ String c b) = b.
Proof.
  induction a as [|x a IH].
  - rewrite string_app_nil. unfold tail_from. cbn. rewrite Nat.sub_0_r.
    apply substring_all.
  - rewrite string_app_cons. unfold tail_from in *. cbn [String.length].
    cbn [String.substring Nat.sub]. exact IH.
Qed.

Lemma split_once_first (c : ascii) (a b : string) :
  has_char c a = false -> split_once c (a ++ String c b) = [a; b].
Proof.
  intros Ha. unfold split_once. rewrite (index_char_first c a b Ha).
  by rewrite substring_app_head, tail_from_after_char.
Qed.

Lemma split_once_none (c : ascii) (s : string) :
  has_char c s = false -> split_once c s = [s].
Proof. intros Hs. unfold split_once. by rewrite (index_char_none c s Hs). Qed.

(** X16. [bucket_and_prefix] first deletes every [gs://] of the URI,
    wherever it stands, and then splits at the first slash. It succeeds
    exactly when a slash is left, with the part before the first slash as
    bucket name and everything after it as prefix; without a slash it
    raises the unpacking [ValueError], as for [gs://bucket]. *)
Theorem bucket_and_prefix_spec (uri : string) :
  let stripped := remove_all "gs://" uri 0 in
  (forall name prefix,
      bucket_and_prefix uri = Ok (name, prefix)
      <-> stripped = name ++ String "/" prefix /\ has_char "/" name = false)
  /\ (forall e,
        bucket_and_prefix uri = Raise e
        <-> has_char "/" stripped = false
            /\ e = ValueError "not enough values to unpack (expected 2, got 1)").
Proof.
  intros stripped. unfold bucket_and_prefix. fold stripped.
  destruct (first_char_split "/" stripped) as [Hno | (a & b & Hs & Ha)].
  - rewrite (split_once_none "/" stripped Hno). split.
    + intros name prefix. split; [discriminate|].
      intros [Hs Hname]. rewrite Hs, has_char_app in Hno.
      cbn in Hno. by rewrite orb_true_r in Hno.
    + intros e. split; [by intros [= <-] | by intros [_ ->]].
  - rewrite Hs, (split_once_first "/" a b Ha). split.
    + intros name prefix. split.
      * by intros [= <- <-].
      * intros [Heq Hname].
        assert (Hsame : split_once "/" (a ++ String "/" b)
                        = split_once "/" (name ++ String "/" prefix))
          by (by rewrite Heq).
        rewrite (split_once_first "/" a b Ha),
          (split_once_first "/" name prefix Hname) in Hsame.
        by injection Hsame as -> ->.
    + intros e. split; [discriminate|].
      intros [Hno _]. rewrite has_char_app in Hno. cbn in Hno.
      by rewrite orb_true_r in Hno.
Qed.

(** The URIs of a request, with and without a slash after the bucket. *)
Lemma bucket_and_prefix_spec_witness :
  bucket_and_prefix "gs://migracion-davincci/mapas/2024"
  = Ok ("migracion-davincci", "mapas/2024")
  /\ bucket_and_prefix "gs://migracion-davincci"
     = Raise (ValueError "not enough values to unpack (expected 2, got 1)").
Proof.
  split.
  - apply (proj1 (bucket_and_prefix_spec "gs://migracion-davincci/mapas/2024")).
    split; reflexivity.
  - apply (proj2 (bucket_and_prefix_spec "gs://migracion-davincci")).
    split; reflexivity.
Defined.
(** ** Names *)

Lemma app_assoc_string (a b c : string) : (a ++ b) ++ c = a ++ (b ++ c).
Proof.
  induction a as [|x a IH]; [reflexivity|]. rewrite !string_app_cons. by rewrite IH.
Qed.

Lemma rfind_from_app (c : ascii) (a b : string) :
  forall i found,
    rfind_from c (a ++ b) i found
    = rfind_from c b (i + String.length a)%nat (rfind_from c a i found).
Proof.
  induction a as [|x a IH]; intros i found.
  - rewrite string_app_nil. cbn. by rewrite Nat.add_0_r.
  - rewrite string_app_cons. cbn [rfind_from String.length]. rewrite IH.
    f_equal. lia.
Qed.

Lemma rfind_from_none (c : ascii) (s : string) :
  has_char c s = false ->
  forall i found, rfind_from c s i found = found.
Proof.
  induction s as [|x s IH]; intros Hno i found; [reflexivity|].
  cbn [has_char] in Hno. apply orb_false_iff in Hno as [Hx Hs].
  cbn [rfind_from]. rewrite Hx. by apply IH.
Qed.

Lemma rfind_last (c : ascii) (a b : string) :
  has_char c b = false -> rfind c (a ++ String c b) = Some (String.length a).
Proof.
  intros Hb. unfold rfind. rewrite rfind_from_app.
  cbn [rfind_from]. rewrite Ascii.eqb_refl. by rewrite rfind_from_none.
Qed.

Lemma rfind_none (c : ascii) (s : string) :
  has_char c s = false -> rfind c s = None.
Proof. intros Hs. unfold rfind. by rewrite rfind_from_none. Qed.

(** A string without [c], or its part after the last [c] and what is
    before. *)
Lemma last_char_split (c : ascii) (s : string) :
  has_char c s = false
  \/ exists a b, s = a ++ String c b /\ has_char c b = false.
Proof.
  induction s as [|x s IH]; [by left|].
  destruct IH as [Hno | (a & b & -> & Hb)].
  - destruct (Ascii.eqb x c) eqn:Hx.
    + right. apply Ascii.eqb_eq in Hx as ->. by exists "", s.
    + left. cbn. by rewrite Hx.
  - right. by exists (String x a), b.
Qed.

Lemma basename_after_slash (a b : string) :
  has_char "/" b = false -> basename (a ++ String "/" b) = b.
Proof.
  intros Hb. unfold basename. rewrite (rfind_last "/" a b Hb).
  apply tail_from_after_char.
Qed.

Lemma basename_plain (s : string) :
  has_char "/" s = false -> basename s = s.
Proof. intros Hs. unfold basename. by rewrite (rfind_none "/" s Hs). Qed.

Lemma basename_no_slash (path : string) : has_char "/" (basename path) = false.
Proof.
  destruct (last_char_split "/" path) as [Hno | (a & b & -> & Hb)].
  - by rewrite basename_plain.
  - by rewrite basename_after_slash.
Qed.

Lemma rsplit_dot_head_no_slash (s : string) :
  has_char "/" s = false -> has_char "/" (rsplit_dot_head s) = false.
Proof.
  intros Hs. unfold rsplit_dot_head.
  destruct (last_char_split "." s) as [Hno | (a & b & -> & Hb)].
  - by rewrite (rfind_none "." s Hno).
  - rewrite (rfind_last "." a b Hb), substring_app_head.
    rewrite has_char_app in Hs. by apply orb_false_iff in Hs as [Ha _].
Qed.

Lemma prefix_char_absent (c : ascii) (s : string) :
  has_char c s = false -> String.prefix (String c EmptyString) s = false.
Proof.
  destruct s as [|x s]; [reflexivity|]. intros Hno.
  cbn [has_char] in Hno. apply orb_false_iff in Hno as [Hx _].
  by rewrite prefix_char.
Qed.

Lemma endswith_char_split (c : ascii) (s : string) :
  endswith_char c s = true -> exists a, s = a ++ String c EmptyString.
Proof.
  induction s as [|x s IH]; [discriminate|].
  destruct s as [|y s].
  - cbn. intros Hx. apply Ascii.eqb_eq in Hx as ->. by exists "".
  - intros Hend. destruct (IH Hend) as [a Ha]. exists (String x a).
    rewrite string_app_cons. by rewrite <- Ha.
Qed.

Lemma basename_path_join (a x : string) :
  has_char "/" x = false -> basename (path_join a x) = x.
Proof.
  intros Hx. unfold path_join. rewrite (prefix_char_absent "/" x Hx).
  destruct (String.eqb a "" || endswith_char "/" a) eqn:Hjoin.
  - apply orb_true_iff in Hjoin as [Hempty | Hend].
    + apply String.eqb_eq in Hempty as ->. rewrite string_app_nil.
      by apply basename_plain.
    + destruct (endswith_char_split "/" a Hend) as [a' ->].
      rewrite app_assoc_string. rewrite string_app_cons, string_app_nil.
      by apply basename_after_slash.
  - change ("/" ++ x) with (String "/" x). by apply basename_after_slash.
Qed.

Lemma all_dots_app (a b : string) :
  all_dots (a ++ b) = all_dots a && all_dots b.
Proof.
  induction a as [|x a IH]; [reflexivity|].
  rewrite string_app_cons. cbn [all_dots]. by rewrite IH, andb_assoc.
Qed.

Lemma tiles_name_extension (head : string) :
  lower (splitext_ext (head ++ "_tiles.pdf")) = ".pdf".
Proof.
  unfold splitext_ext.
  change (head ++ "_tiles.pdf") with (head ++ ("_tiles" ++ String "." "pdf")).
  rewrite <- app_assoc_string.
  rewrite (rfind_last "." (head ++ "_tiles") "pdf" eq_refl).
  rewrite substring_app_head, all_dots_app.
  change (all_dots "_tiles") with false. rewrite andb_false_r.
  by rewrite tail_from_app.
Qed.

Section OutputNames.

Context `{Platform}.

(** X17. Whatever the request, the object name a run uploads under has
    the base name [<input base name up to its last dot>_tiles.pdf], so its
    extension is [.pdf]: by its name a document the worker has written is
    itself PDF input for the worker, which would render its first page
    and tile it again. *)
Theorem output_is_named_as_pdf (op : string) (req : ProcessRequest) :
  basename (output_name op req)
  = rsplit_dot_head (basename (p_file_path req)) ++ "_tiles.pdf"
  /\ lower (splitext_ext (basename (output_name op req))) = ".pdf"
  /\ (forall fuel f,
        image_for_tiling fuel
          (lower (splitext_ext (basename (output_name op req)))) f
        = Some (image ← extract_first_page_from_pdf f; Ok (Some image))).
Proof.
  assert (Hbase : basename (output_name op req)
                  = rsplit_dot_head (basename (p_file_path req))
                    ++ "_tiles.pdf").
  { unfold output_name. apply basename_path_join.
    rewrite has_char_app.
    by rewrite (rsplit_dot_head_no_slash _ (basename_no_slash _)). }
  assert (Hext : lower (splitext_ext (basename (output_name op req))) = ".pdf")
    by (rewrite Hbase; apply tiles_name_extension).
  split_and!; auto.
  intros fuel f. rewrite Hext. reflexivity.
Qed.

End OutputNames.
Lemma get_object_In (b n : string) (f : File)
    (l : list (string * string * File)) :
  get_object b n l = Some f -> In (b, n, f) l.
Proof.
  induction l as [|[[b0 n0] g] l IH]; [discriminate|].
  cbn [get_object].
  destruct (String.eqb b0 b && String.eqb n0 n) eqn:E.
  - apply same_key in E as [-> ->]. intros [= ->]. by left.
  - intros Hget. right. by apply IH.
Qed.

Lemma endswith_char_app (c : ascii) (a b : string) :
  b <> EmptyString -> endswith_char c (a ++ b) = endswith_char c b.
Proof.
  intros Hb. induction a as [|x a IH]; [reflexivity|].
  rewrite string_app_cons. cbn [endswith_char].
  destruct (a ++ b) as [|y s] eqn:Hab; [|exact IH].
  destruct a; [by rewrite string_app_nil in Hab | discriminate].
Qed.

Lemma output_name_no_trailing_slash (op : string) (req : ProcessRequest) :
  endswith_char "/" (output_name op req) = false.
Proof.
  unfold output_name, path_join.
  set (head := rsplit_dot_head (basename (p_file_path req))).
  assert (Hx : endswith_char "/" (head ++ "_tiles.pdf") = false)
    by (by rewrite endswith_char_app).
  destruct (String.prefix "/" (head ++ "_tiles.pdf")); [exact Hx|].
  assert (Hne : head ++ "_tiles.pdf" <> "").
  { destruct head; [discriminate|]. rewrite string_app_cons. discriminate. }
  destruct (String.eqb op "" || endswith_char "/" op).
  - by rewrite endswith_char_app.
  - rewrite endswith_char_app; [|by destruct head].
    change ("/" ++ head ++ "_tiles.pdf") with (String "/" (head ++ "_tiles.pdf")).
    cbn [endswith_char]. destruct (head ++ "_tiles.pdf"); [done | exact Hx].
Qed.
(** ** The tracker file as text *)

(** *** Proofs *)

Lemma app_nil_r_string (s : string) : s ++ "" = s.
Proof.
  induction s as [|x s IH]; [reflexivity|]. rewrite string_app_cons. by rewrite IH.
Qed.

Lemma lstrip_id (s : string) : first_is_space s = false -> lstrip s = s.
Proof. destruct s as [|c s]; [reflexivity|]. cbn. by intros ->. Qed.

Lemma rstrip_id (s : string) : last_is_space s = false -> rstrip s = s.
Proof.
  induction s as [|c s IH]; [reflexivity|].
  cbn [last_is_space rstrip]. destruct s as [|c' s].
  - intros ->. reflexivity.
  - intros Hs. rewrite (IH Hs). reflexivity.
Qed.

Lemma last_is_space_app (a b : string) :
  b <> "" -> last_is_space (a ++ b) = last_is_space b.
Proof.
  intros Hb. induction a as [|c a IH]; [reflexivity|].
  rewrite string_app_cons. cbn [last_is_space].
  destruct (a ++ b) as [|c' s] eqn:Hab; [|exact IH].
  destruct a; [by rewrite string_app_nil in Hab | discriminate].
Qed.

Lemma splitlines_from_line (name : string) :
  no_linebreak name = true ->
  forall cur rest,
    splitlines_from cur (name ++ rest) = splitlines_from (cur ++ name) rest.
Proof.
  induction name as [|c name IH]; intros Hname cur rest.
  - by rewrite string_app_nil, app_nil_r_string.
  - cbn in Hname. apply andb_true_iff in Hname as [Hc Hname].
    apply negb_true_iff in Hc.
    rewrite string_app_cons. cbn [splitlines_from]. rewrite Hc.
    rewrite (IH Hname). f_equal.
    rewrite app_assoc_string. reflexivity.
Qed.

Lemma splitlines_concat (l : list string) :
  Forall (fun name => clean_name name = true) l ->
  forall cur, (cur <> "" \/ l <> []) ->
    splitlines_from cur (String.concat newline l)
    = match l with
      | [] => [cur]
      | name :: others => (cur ++ name) :: others
      end.
Proof.
  induction 1 as [|name l Hname Hl IH]; intros cur Hne.
  - cbn. destruct cur; [by destruct Hne | reflexivity].
  - unfold clean_name in Hname.
    apply andb_true_iff in Hname as [Hname _].
    apply andb_true_iff in Hname as [Hname _].
    apply andb_true_iff in Hname as [Hne' Hlb].
    apply negb_true_iff in Hne'.
    assert (Hcur : String.eqb (cur ++ name) "" = false).
    { destruct cur; [exact Hne'|reflexivity]. }
    destruct l as [|name' l'].
    + cbn [String.concat].
      rewrite <- (app_nil_r_string name) at 1.
      rewrite (splitlines_from_line name Hlb). cbn [splitlines_from].
      by rewrite Hcur.
    + change (String.concat newline (name :: name' :: l'))
        with (name ++ newline ++ String.concat newline (name' :: l')).
      rewrite (splitlines_from_line name Hlb).
      unfold newline at 1. rewrite string_app_cons, string_app_nil.
      cbn [splitlines_from].
      change (is_linebreak "010") with true. cbv iota.
      f_equal.
      assert (Hnext : splitlines_from "" (String.concat newline (name' :: l'))
                      = name' :: l').
      { rewrite (IH ""); [reflexivity | by right]. }
      destruct (String.concat newline (name' :: l')) as [|c s] eqn:Hs;
        [exact Hnext|].
      change (code "010" =? 13) with false. exact Hnext.
Qed.

Lemma concat_first_is_space (l : list string) :
  Forall (fun name => clean_name name = true) l ->
  first_is_space (String.concat newline l) = false.
Proof.
  intros [|name others Hname _]; [reflexivity|].
  unfold clean_name in Hname.
  apply andb_true_iff in Hname as [Hname _].
  apply andb_true_iff in Hname as [Hname Hfirst].
  apply andb_true_iff in Hname as [Hne _].
  apply negb_true_iff in Hfirst.
  destruct name as [|c name]; [discriminate|].
  destruct others; exact Hfirst.
Qed.

Lemma concat_last_is_space (l : list string) :
  Forall (fun name => clean_name name = true) l ->
  last_is_space (String.concat newline l) = false.
Proof.
  induction 1 as [|name l Hname Hl IH]; [reflexivity|].
  destruct l as [|name' l'].
  - unfold clean_name in Hname.
    apply andb_true_iff in Hname as [_ Hlast].
    by apply negb_true_iff in Hlast.
  - change (String.concat newline (name :: name' :: l'))
      with (name ++ newline ++ String.concat newline (name' :: l')).
    rewrite last_is_space_app; [|discriminate].
    destruct (String.concat newline (name' :: l')) as [|c s] eqn:Hs.
    + apply Forall_inv in Hl. destruct name'; [discriminate|].
      destruct l'; discriminate.
    + exact IH.
Qed.

Lemma lines_of_clean_text (l : list string) :
  Forall (fun name => clean_name name = true) l ->
  splitlines (strip (String.concat newline l)) = l.
Proof.
  intros Hall. unfold strip.
  rewrite lstrip_id by by apply concat_first_is_space.
  rewrite rstrip_id by by apply concat_last_is_space.
  unfold splitlines. destruct l as [|name others]; [reflexivity|].
  rewrite splitlines_concat; [|exact Hall | right; discriminate].
  by rewrite string_app_nil.
Qed.

Lemma sorted_elements (names : gset string) :
  list_to_set (sorted (elements names)) = names.
Proof.
  unfold sorted. rewrite merge_sort_Permutation.
  apply list_to_set_elements_L.
Qed.

Lemma sorted_clean (names : gset string) :
  set_Forall (fun name => clean_name name = true) names ->
  Forall (fun name => clean_name name = true) (sorted (elements names)).
Proof.
  intros Hclean. unfold sorted. rewrite merge_sort_Permutation.
  apply Forall_forall. intros name Hname. by apply Hclean, elem_of_elements.
Qed.

(** X20. The tracker file round trip. For a set of names that are not
    empty, hold no line boundary and neither start nor end with white
    space, the text [update_tracker] uploads is read back by
    [load_tracker] as the same set. *)
Theorem tracker_text_round_trip (all_files : gset string) :
  set_Forall (fun name => clean_name name = true) all_files ->
  tracker_names (tracker_text all_files) = all_files.
Proof.
  intros Hclean. unfold tracker_names, tracker_text.
  rewrite lines_of_clean_text by by apply sorted_clean.
  apply sorted_elements.
Qed.

Lemma tracker_text_round_trip_witness :
  let names : gset string := {[ "maps/a.png"; "maps/b c.tif" ]} in
  tracker_text names = "maps/a.png" ++ newline ++ "maps/b c.tif"
  /\ tracker_names (tracker_text names) = names.
Proof.
  intros names. split; [vm_compute; reflexivity|].
  apply tracker_text_round_trip.
  intros name [->%elem_of_singleton | ->%elem_of_singleton]%elem_of_union;
    reflexivity.
Defined.

(** *** A clean name among any others

    A clean name of the set is a line of the text whatever the other
    names are: white space is stripped from neighbours only, and a line
    boundary inside another name splits that name only. *)

Lemma endswith_char_tail (c x : ascii) (A : string) :
  String x A = "" \/ endswith_char c (String x A) = true ->
  A = "" \/ endswith_char c A = true.
Proof.
  intros [HA|HA]; [discriminate|].
  destruct A as [|y A]; [by left | by right].
Qed.

Lemma lstrip_before (s : string) :
  first_is_space s = false ->
  forall A,
    A = "" \/ endswith_char "010" A = true ->
    exists A', (A' = "" \/ endswith_char "010" A' = true)
               /\ lstrip (A ++ s) = A' ++ s.
Proof.
  intros Hs. induction A as [|c A IH]; intros HA.
  - exists "". split; [by left|]. rewrite string_app_nil. by apply lstrip_id.
  - rewrite string_app_cons. cbn [lstrip]. destruct (is_space c).
    + apply IH. by eapply endswith_char_tail.
    + exists (String c A). by rewrite string_app_cons.
Qed.

Lemma rstrip_after (s B : string) :
  s <> "" -> last_is_space s = false -> rstrip (s ++ B) = s ++ rstrip B.
Proof.
  induction s as [|c s IH]; [done|]. intros _ Hlast.
  rewrite !string_app_cons. cbn [rstrip]. destruct s as [|c' s].
  - cbn in Hlast. rewrite !string_app_nil. rewrite Hlast.
    by destruct (rstrip B).
  - rewrite IH; [|discriminate | exact Hlast].
    by rewrite string_app_cons.
Qed.

Lemma rstrip_line_start (B : string) :
  B = "" \/ (exists B0, B = String "010" B0) ->
  rstrip B = "" \/ exists B1, rstrip B = String "010" B1.
Proof.
  intros [-> | (B0 & ->)]; [by left|].
  cbn [rstrip]. destruct (rstrip B0) as [|c B1].
  - by left.
  - right. by eexists.
Qed.

Lemma splitlines_own_line (name B : string) :
  name <> "" -> no_linebreak name = true ->
  B = "" \/ (exists B0, B = String "010" B0) ->
  name ∈ splitlines_from "" (name ++ B).
Proof.
  intros Hne Hlb HB. rewrite (splitlines_from_line name Hlb), string_app_nil.
  destruct HB as [-> | (B0 & ->)]; cbn [splitlines_from].
  - destruct (String.eqb name "") eqn:E.
    + by apply String.eqb_eq in E.
    + apply list_elem_of_here.
  - change (is_linebreak "010") with true. cbv iota. apply list_elem_of_here.
Qed.

Lemma splitlines_has_line (name B : string) :
  name <> "" -> no_linebreak name = true ->
  B = "" \/ (exists B0, B = String "010" B0) ->
  forall (n : nat) (A cur : string),
    (String.length A <= n)%nat ->
    (A = "" -> cur = "") ->
    A = "" \/ endswith_char "010" A = true ->
    name ∈ splitlines_from cur (A ++ name ++ B).
Proof.
  intros Hne Hlb HB.
  induction n as [|n IH]; intros A cur Hlen Hcur HA.
  - destruct A; [|cbn in Hlen; lia].
    rewrite string_app_nil, (Hcur eq_refl). by apply splitlines_own_line.
  - destruct A as [|c A].
    { rewrite string_app_nil, (Hcur eq_refl). by apply splitlines_own_line. }
    cbn in Hlen.
    pose proof (endswith_char_tail _ _ _ HA) as HA1.
    rewrite string_app_cons. cbn [splitlines_from].
    destruct (is_linebreak c) eqn:Hc.
    + apply list_elem_of_further. destruct A as [|c' A].
      * rewrite string_app_nil.
        destruct HA as [HA|HA]; [discriminate|].
        cbn in HA. apply Ascii.eqb_eq in HA. subst c.
        destruct name as [|x name'] eqn:Hname; [done|].
        rewrite string_app_cons. change (code "010" =? 13) with false.
        cbn [andb]. rewrite <- string_app_cons, <- Hname.
        apply splitlines_own_line; subst; auto.
      * rewrite string_app_cons.
        destruct ((code c =? 13) && (code c' =? 10)).
        -- apply IH; [cbn in Hlen; lia | done |].
           by eapply endswith_char_tail.
        -- rewrite <- string_app_cons. apply IH; [lia | done | exact HA1].
    + apply IH; [lia | | exact HA1].
      intros ->. destruct HA as [HA|HA]; [discriminate|].
      cbn in HA. apply Ascii.eqb_eq in HA. subst c. discriminate.
Qed.

Lemma concat_has_line (name : string) (l : list string) :
  name ∈ l ->
  exists A B,
    String.concat newline l = A ++ name ++ B
    /\ (A = "" \/ endswith_char "010" A = true)
    /\ (B = "" \/ exists B0, B = String "010" B0).
Proof.
  induction l as [|x l IH]; [by intros ?%elem_of_nil|].
  intros Hin. destruct l as [|y l].
  - apply list_elem_of_singleton in Hin as ->.
    exists "", "". rewrite string_app_nil, app_nil_r_string. auto.
  - change (String.concat newline (x :: y :: l))
      with (x ++ newline ++ String.concat newline (y :: l)).
    apply elem_of_cons in Hin as [-> | Hin].
    + exists "", (newline ++ String.concat newline (y :: l)).
      rewrite string_app_nil. split_and!; auto. right. by eexists.
    + destruct (IH Hin) as (A & B & -> & HA & HB).
      exists (x ++ newline ++ A), B. split_and!; auto.
      * by rewrite !app_assoc_string.
      * right. rewrite <- app_assoc_string. destruct HA as [-> | HA].
        -- rewrite app_nil_r_string. by rewrite endswith_char_app.
        -- rewrite endswith_char_app; [exact HA|]. by intros ->.
Qed.

(** A clean name that the set holds is read back from the text written
    for the set, whatever the other names of the set are. *)
Lemma clean_name_stays (name : string) (all_files : gset string) :
  clean_name name = true -> name ∈ all_files ->
  name ∈ tracker_names (tracker_text all_files).
Proof.
  intros Hclean Hin. unfold clean_name in Hclean.
  apply andb_true_iff in Hclean as [Hclean Hlast].
  apply andb_true_iff in Hclean as [Hclean Hfirst].
  apply andb_true_iff in Hclean as [Hne Hlb].
  apply negb_true_iff in Hne, Hfirst, Hlast.
  apply String.eqb_neq in Hne.
  unfold tracker_names, tracker_text. apply elem_of_list_to_set.
  assert (Hl : name ∈ sorted (elements all_files)).
  { unfold sorted. rewrite merge_sort_Permutation. by apply elem_of_elements. }
  destruct (concat_has_line name _ Hl) as (A & B & -> & HA & HB).
  unfold strip.
  assert (Hs : first_is_space (name ++ B) = false).
  { destruct name; [done | exact Hfirst]. }
  destruct (lstrip_before _ Hs A HA) as (A' & HA' & ->).
  rewrite <- app_assoc_string.
  rewrite rstrip_after.
  - rewrite app_assoc_string. unfold splitlines.
    apply (splitlines_has_line name (rstrip B) Hne Hlb
             (rstrip_line_start B HB) (String.length A') A' "");
      [lia | done | exact HA'].
  - destruct A'; [by rewrite string_app_nil | discriminate].
  - by rewrite last_is_space_app.
Qed.
(** ** Marking through the tracker functions *)

(** X8. Marking through the tracker functions, when the tracker object
    can be read and written: [update_tracker(names, load_tracker())]
    writes the text of the names read before (none, when the tracker
    object did not exist) together with the new ones, and touches neither
    storage nor queue. Every clean name among them is read back. When all
    of them are clean, the names read back are exactly that union, and
    marking a second time with the same names leaves the tracker object
    as the first marking left it. *)
Theorem marking_is_idempotent_union (names : gset string) (w : World) :
  let mark := fun w => match load_tracker w with
                       | (Ok existing, w1) =>
                           snd (update_tracker names existing w1)
                       | (Raise _, w1) => w1
                       end in
  read_error (tracker w) = None -> write_error (tracker w) = None ->
  tracker_blob (tracker (mark w)) = Some (tracker_text (marked w ∪ names))
  /\ storage (mark w) = storage w
  /\ queue (mark w) = queue w
  /\ (forall name, clean_name name = true -> name ∈ marked w ∪ names ->
                   name ∈ marked (mark w))
  /\ (set_Forall (fun name => clean_name name = true) (marked w ∪ names) ->
      marked (mark w) = marked w ∪ names
      /\ tracker (mark (mark w)) = tracker (mark w)).
Proof.
  intros mark Hread Hwrite.
  assert (Hmark : forall w0,
             read_error (tracker w0) = None ->
             write_error (tracker w0) = None ->
             mark w0 = write_tracker (tracker_text (marked w0 ∪ names))
                         (log TrackerRead w0)).
  { intros w0 Hr Hw. unfold mark, load_tracker, update_tracker.
    rewrite Hr. cbn [log tracker write_error]. by rewrite Hw. }
  clearbody mark.
  rewrite (Hmark w Hread Hwrite). cbn [write_tracker log tracker storage
    queue tracker_blob]. split_and!; auto.
  - intros name Hclean Hin. unfold marked. cbn. by apply clean_name_stays.
  - intros Hall.
    assert (Hback : marked (write_tracker (tracker_text (marked w ∪ names))
                              (log TrackerRead w)) = marked w ∪ names).
    { unfold marked at 1. cbn. unfold tracker_names, tracker_text.
      rewrite lines_of_clean_text by by apply sorted_clean.
      apply sorted_elements. }
    split; [exact Hback|].
    rewrite Hmark; [|cbn; exact Hread | cbn; exact Hwrite].
    rewrite Hback. cbn. f_equal. f_equal. f_equal.
    by rewrite <- (assoc_L (∪)), (idemp_L (∪)).
Qed.

(** Two names, one of them marked before. *)
Lemma marking_is_idempotent_union_witness :
  let w := one_object_world "maps/a.png" (raster_file 500 40 30)
             (Some {[ "maps/a.png" ]}) in
  let names : gset string := {[ "maps/b.tif" ]} in
  let mark := fun w => match load_tracker w with
                       | (Ok existing, w1) =>
                           snd (update_tracker names existing w1)
                       | (Raise _, w1) => w1
                       end in
  tracker_blob (tracker (mark w))
  = Some ("maps/a.png" ++ newline ++ "maps/b.tif")
  /\ marked (mark w) = {[ "maps/a.png" ]} ∪ names
  /\ tracker (mark (mark w)) = tracker (mark w).
Proof.
  intros w names mark. subst mark. cbv beta.
  assert (Hw : marked w = {[ "maps/a.png" ]}).
  { unfold marked. cbn. unfold tracker_names, tracker_text.
    rewrite lines_of_clean_text by (apply sorted_clean;
      intros name ->%elem_of_singleton; reflexivity).
    apply sorted_elements. }
  pose proof (marking_is_idempotent_union names w eq_refl eq_refl) as Hmark.
  cbv zeta beta in Hmark. destruct Hmark as (Htext & _ & _ & _ & Hclean).
  split; [rewrite Htext; vm_compute; reflexivity|].
  rewrite <- Hw. apply Hclean. rewrite Hw.
  intros name [->%elem_of_singleton | ->%elem_of_singleton]%elem_of_union;
    reflexivity.
Defined.

Section RunEffects.

Context `{Platform}.

Lemma process_single_ok_inv (fuel : nat) (req : ProcessRequest) (w : World)
    (resp : Response) (w' : World) :
  process_single fuel req w = Some (resp, w') ->
  (exists e, process_single_try fuel req w = Some (Raise e, w')
             /\ resp = mkResponse 500 (Error e))
  \/ process_single_try fuel req w = Some (Ok resp, w').
Proof.
  unfold process_single.
  destruct (process_single_try fuel req w) as [[[r|e] w0]|]; [| |discriminate].
  - intros [= <- <-]. by right.
  - intros [= <- <-]. left. by exists e.
Qed.

Lemma process_single_procesado_inv (fuel : nat) (req : ProcessRequest)
    (w : World) (name : string) (w' : World) :
  process_single fuel req w = Some (mkResponse 200 (Procesado name), w') ->
  process_single_try fuel req w
  = Some (Ok (mkResponse 200 (Procesado name)), w').
Proof.
  intros Hrun.
  by destruct (process_single_ok_inv fuel req w _ _ Hrun)
    as [(e & _ & [=]) | Htry].
Qed.

(** X9. A run that reports the file as processed has written one object,
    the document, under [<prefix>/<name without extension>_tiles.pdf] in
    the output bucket; every other object is as before; the queue is
    untouched. The tracker object now holds the text written for the
    names read before together with the file name. When the file name is
    clean it is read back from that text; when all these names are clean,
    what is read back is exactly the former names and the file name. *)
Theorem successful_run_effects (fuel : nat) (req : ProcessRequest)
    (w w' : World) :
  process_single fuel req w
  = Some (mkResponse 200 (Procesado (p_file_path req)), w') ->
  exists ob op doc pages,
    bucket_and_prefix (p_output_bucket req) = Ok (ob, op)
    /\ get_object ob (output_name op req) (storage w') = Some doc
    /\ file_body doc = Pdf pages
    /\ (forall b n, (b, n) <> (ob, output_name op req) ->
          get_object b n (storage w') = get_object b n (storage w))
    /\ tracker_blob (tracker w')
       = Some (tracker_text (marked w ∪ {[ p_file_path req ]}))
    /\ (clean_name (p_file_path req) = true -> p_file_path req ∈ marked w')
    /\ (set_Forall (fun name => clean_name name = true)
          (marked w ∪ {[ p_file_path req ]}) ->
        marked w' = marked w ∪ {[ p_file_path req ]})
    /\ queue w' = queue w.
Proof.
  intros Hrun. apply process_single_procesado_inv in Hrun.
  destruct (process_single_done_inv fuel req w _ _ Hrun)
    as (b & p & ob & op & lf & image & tiles & doc
        & Hin & Hout & Hget & Himg & Hsplit & Hpdf & _ & _ & _ & _ & ->).
  unfold tiles_to_pdf in Hpdf.
  destruct (pages_of_tiles tiles) as [pages|e] eqn:Hpages; [|discriminate].
  cbn in Hpdf. injection Hpdf as <-.
  exists ob, op, {| file_size := pdf_size pages; file_body := Pdf pages |}, pages.
  split_and!; auto.
  - cbn. apply get_put_same.
  - intros b' n' Hne. cbn. by apply get_put_other.
  - intros Hclean. unfold marked. cbn. apply clean_name_stays; [done|].
    apply elem_of_union_r, elem_of_singleton. reflexivity.
  - intros Hall. unfold marked at 1. cbn. unfold tracker_names, tracker_text.
    rewrite lines_of_clean_text by by apply sorted_clean.
    apply sorted_elements.
Qed.

(** X10. With a parts count of 0 a run never reports success: whatever
    the file, the answer is not [procesado], nothing is uploaded and the
    tracker is not written. *)
Theorem zero_parts_never_succeed (fuel : nat) (req : ProcessRequest)
    (w : World) (resp : Response) (w' : World) :
  p_horizontal_parts req = Some 0 ->
  process_single fuel req w = Some (resp, w') ->
  (forall name, body resp <> Procesado name)
  /\ storage w' = storage w
  /\ tracker w' = tracker w.
Proof.
  intros Hparts Hrun.
  assert (Hfail : forall r w0,
             process_single_try fuel req w = Some (r, w0) ->
             (forall name, r <> Ok (mkResponse 200 (Procesado name)))
             /\ storage w0 = storage w /\ tracker w0 = tracker w).
  { intros r w0 Htry.
    destruct (process_single_try_inv fuel req w _ _ Htry)
      as [(e' & -> & [-> | (b & ->)])
         | [(b & lf & -> & -> & _)
           | (b & p & ob & op & lf & image & tiles & doc
              & _ & _ & _ & _ & Hsplit & _)]];
      try (split_and!; [intros name; discriminate | reflexivity | reflexivity]).
    rewrite Hparts in Hsplit. cbn [default] in Hsplit.
    destruct (imread image); discriminate. }
  destruct (process_single_ok_inv fuel req w _ _ Hrun)
    as [(e & Htry & ->) | Htry];
    destruct (Hfail _ _ Htry) as (Hne & Hst & Htr); split_and!; auto.
  intros name Hbody. apply (Hne name). destruct resp as [st bd].
  cbn in Hbody. subst bd.
  destruct (process_single_try_inv fuel req w _ _ Htry)
      as [(e' & [=] & _)
         | [(b & lf & [=] & _)
           | (b & p & ob & op & lf & image & tiles & doc
              & _ & _ & _ & _ & _ & _ & _
              & [(e' & [=] & _) | [(e' & [=] & _) | ([= -> ->] & _)]])]].
  reflexivity.
Qed.



End RunEffects.

(** ** What [enqueue_tasks] selects *)

Lemma enqueue_tasks_inv (req : EnqueueRequest) (w : World)
    (resp : Response) (w' : World) :
  enqueue_tasks req w = (resp, w') ->
  (exists e, (bucket_and_prefix (e_input_bucket req) = Raise e
              \/ read_error (tracker w) = Some e)
             /\ resp = mkResponse 500 (Error e) /\ w' = w)
  \/ (exists b p files,
        bucket_and_prefix (e_input_bucket req) = Ok (b, p)
        /\ read_error (tracker w) = None
        /\ files = slice (candidates b p w) 0 (default 5 (e_max_files req))
        /\ resp = mkResponse 200 (TareasEnviadas (Z.of_nat (length files)))
        /\ queue w' = (queue w ++ map (task_for req) files)%list
        /\ storage w' = storage w
        /\ tracker w' = tracker w
        /\ events w' = (events w ++ [TrackerRead; Listed b p]
                        ++ map TaskCreated (map (task_for req) files))%list).
Proof.
  unfold enqueue_tasks, enqueue_tasks_try.
  destruct (bucket_and_prefix (e_input_bucket req)) as [[b p]|e].
  2:{ intros [= <- <-]. left. exists e. auto. }
  unfold load_tracker. destruct (read_error (tracker w)) as [e|] eqn:Hread.
  { intros [= <- <-]. left. exists e. auto. }
  cbn [list_blobs].
  intros [= <- <-]. right.
  exists b, p, (slice (candidates b p w) 0 (default 5 (e_max_files req))).
  destruct (create_tasks_effect
              (map (task_for req)
                 (slice (candidates b p w) 0 (default 5 (e_max_files req))))
              (log (Listed b p) (log TrackerRead w))) as (Hs & Ht & Hq & He).
  cbn zeta in *. unfold task_for, candidates, marked in *.
  cbn [storage tracker queue events log] in *.
  rewrite Hs, Ht, Hq, He, <- !app_assoc. by split_and!.
Qed.

Lemma slice_from_start {A : Type} (l : list A) (m : Z) :
  slice l 0 m
  = firstn (Z.to_nat (if m <? 0 then Z.of_nat (length l) + m else m)) l.
Proof.
  unfold slice, slice_bound. change (0 <? 0) with false. cbv iota.
  pose proof (Nat2Z.is_nonneg (length l)) as Hn.
  rewrite (Z.min_l 0) by exact Hn. change (Z.to_nat 0) with 0%nat.
  rewrite skipn_O.
  rewrite Z.sub_0_r.
  destruct (m <? 0) eqn:Hm.
  - f_equal. lia.
  - destruct (Z.le_gt_cases m (Z.of_nat (length l))) as [Hle|Hgt].
    + by rewrite Z.min_l.
    + rewrite Z.min_r by lia. rewrite Nat2Z.id.
      rewrite firstn_all. symmetry. apply firstn_all2. lia.
Qed.

Lemma listed_object_exists (b n : string) (f : File)
    (l : list (string * string * File)) :
  In (b, n, f) l -> is_Some (get_object b n l).
Proof.
  induction l as [|[[b0 n0] g] l IH]; intros Hin; [destruct Hin|].
  cbn [get_object].
  destruct (String.eqb b0 b && String.eqb n0 n) eqn:E; [by eexists|].
  destruct Hin as [[= -> -> ->]|Hin]; [|by apply IH].
  by rewrite !String.eqb_refl in E.
Qed.

Lemma candidates_spec (b p : string) (w : World) (name : string) :
  In name (candidates b p w) ->
  (name ∉ marked w)
  /\ endswith_char "/" name = false
  /\ String.prefix p name = true
  /\ is_Some (get_object b name (storage w)).
Proof.
  unfold candidates. rewrite filter_In, in_map_iff.
  intros [([[b0 n0] f] & Hname & Hin) Hkeep].
  cbn in Hname. subst n0.
  apply filter_In in Hin as [Hin Hsel]. cbn in Hsel.
  apply andb_true_iff in Hsel as [Hb Hp]. apply String.eqb_eq in Hb. subst b0.
  apply andb_true_iff in Hkeep as [Hnew Hslash].
  apply negb_true_iff in Hnew, Hslash. apply bool_decide_eq_false in Hnew.
  split_and!; auto. by eapply listed_object_exists.
Qed.

(** X12. When the input URI parses and the tracker can be read,
    [enqueue_tasks] queues one task per selected name, in listing order,
    and reports their number. The selection is a leading part of the
    candidates (listed under the prefix, not in the tracker, not ending in
    a slash): the first [max_files] of them for a non-negative [max_files]
    (default 5), and all but the last [|max_files|] for a negative one.
    Each queued name is an object of the input bucket, and each task
    carries the request's two URIs and its parts count (default 5). When
    the tracker read raises, the answer is 500 and nothing is queued. *)
Theorem enqueue_selects_leading_candidates (req : EnqueueRequest) (w : World)
    (resp : Response) (w' : World) (b p : string) :
  bucket_and_prefix (e_input_bucket req) = Ok (b, p) ->
  enqueue_tasks req w = (resp, w') ->
  let all := candidates b p w in
  let max_files := default 5 (e_max_files req) in
  let k := Z.to_nat (if max_files <? 0
                     then Z.of_nat (length all) + max_files else max_files) in
  match read_error (tracker w) with
  | Some e => resp = mkResponse 500 (Error e) /\ w' = w
  | None =>
      queue w' = (queue w ++ map (task_for req) (firstn k all))%list
      /\ resp = mkResponse 200
                  (TareasEnviadas (Z.of_nat (length (firstn k all))))
      /\ (0 <= max_files -> Z.of_nat (length (firstn k all)) <= max_files)
      /\ Forall (fun name => (name ∉ marked w)
                             /\ endswith_char "/" name = false
                             /\ String.prefix p name = true
                             /\ is_Some (get_object b name (storage w)))
           (firstn k all)
  end.
Proof.
  intros Hin Hrun all max_files k.
  destruct (enqueue_tasks_inv req w resp w' Hrun)
    as [(e & [He | He] & Hresp & Hw)
       | (b' & p' & files & Hin' & Hread & Hfiles & Hresp & Hq & _)];
    [congruence | by rewrite He |].
  rewrite Hread.
  assert (b' = b /\ p' = p) as [-> ->] by (split; congruence).
  rewrite slice_from_start in Hfiles. fold all max_files k in Hfiles.
  subst files. split_and!; auto.
  - intros Hmax. rewrite length_take. subst k.
    destruct (max_files <? 0) eqn:E; lia.
  - apply Forall_take, Forall_forall. intros name Hname.
    by apply candidates_spec, list_elem_of_In.
Qed.

Section AcrossRuns.

Context `{Platform}.

(** X13. Once a run has reported a file with a clean name as processed,
    no later [enqueue_tasks] call queues it again, in any world whose
    tracker still holds what that run left in it. *)
Theorem processed_file_is_not_queued_again (fuel : nat) (preq : ProcessRequest)
    (w w1 w2 : World) (ereq : EnqueueRequest) (resp : Response) (w3 : World) :
  process_single fuel preq w
  = Some (mkResponse 200 (Procesado (p_file_path preq)), w1) ->
  clean_name (p_file_path preq) = true ->
  marked w1 ⊆ marked w2 ->
  enqueue_tasks ereq w2 = (resp, w3) ->
  exists tasks,
    queue w3 = (queue w2 ++ tasks)%list
    /\ Forall (fun t => task_file_path t <> p_file_path preq) tasks.
Proof.
  intros Hrun Hclean Hkept Henq.
  assert (Hmarked : p_file_path preq ∈ marked w2).
  { apply Hkept. apply process_single_procesado_inv in Hrun.
    destruct (process_single_done_inv fuel preq w _ _ Hrun)
      as (b & p & ob & op & lf & image & tiles & doc
          & _ & _ & _ & _ & _ & _ & _ & _ & _ & _ & ->).
    unfold marked. cbn. apply clean_name_stays; [done|].
    apply elem_of_union_r, elem_of_singleton. reflexivity. }
  destruct (enqueue_tasks_inv ereq w2 resp w3 Henq)
    as [(e & _ & _ & ->) | (b & p & files & _ & _ & Hfiles & _ & Hq & _)].
  { exists []. by rewrite app_nil_r. }
  exists (map (task_for ereq) files). split; [exact Hq|].
  apply Forall_map. subst files. apply Forall_slice, Forall_forall.
  intros name Hname. apply list_elem_of_In, candidates_spec in Hname.
  destruct Hname as (Hnew & _). cbn. by intros ->.
Qed.

End AcrossRuns.

(** ** Invariants of the handlers *)

Lemma only_grows_refl (w : World) : only_grows w w.
Proof.
  unfold only_grows.
  split_and!; [auto | auto | exists [] | exists []]; by rewrite app_nil_r.
Qed.

Lemma only_grows_events (w : World) (evs : list Event) :
  only_grows w {| storage := storage w; tracker := tracker w;
                  queue := queue w; events := (events w ++ evs)%list |}.
Proof.
  unfold only_grows, marked. cbn.
  split_and!; [auto | auto | exists []; by rewrite app_nil_r | by exists evs].
Qed.

Section Invariants.

Context `{Platform}.

(** X14. Neither handler ever deletes an object, removes a task or drops
    an event, whatever the request and however the run ends, and a marked
    name that is clean stays marked; [process_single] moreover never adds
    a task. *)
Theorem handlers_only_add (fuel : nat) :
  (forall req w resp w',
      process_single fuel req w = Some (resp, w') ->
      only_grows w w' /\ queue w' = queue w)
  /\ (forall req w resp w',
        enqueue_tasks req w = (resp, w') -> only_grows w w').
Proof.
  split.
  - intros req w resp w' Hrun.
    assert (Htry : exists r, process_single_try fuel req w = Some (r, w')).
    { destruct (process_single_ok_inv fuel req w _ _ Hrun)
        as [(e & Htry & _) | Htry]; by eexists. }
    destruct Htry as [r Htry].
    destruct (process_single_try_inv fuel req w _ _ Htry)
      as [(e & _ & [-> | (b & ->)])
         | [(b & lf & _ & -> & _)
           | (b & p & ob & op & lf & image & tiles & doc & _ & _ & _ & _ & _
              & _ & _ & [(e & _ & _ & ->)
                        | [(e & _ & _ & _ & ->) | (_ & _ & _ & ->)]])]].
    + split; [apply only_grows_refl | reflexivity].
    + split; [apply (only_grows_events w [_]) | reflexivity].
    + split; [apply (only_grows_events w [_]) | reflexivity].
    + split; [|reflexivity]. unfold only_grows, marked. cbn. split_and!.
      * intros b' n' Hsome. by apply put_keeps_objects.
      * auto.
      * exists []. by rewrite app_nil_r.
      * rewrite <- !app_assoc. by eexists.
    + split; [|reflexivity]. unfold only_grows, marked. cbn. split_and!.
      * intros b' n' Hsome. by apply put_keeps_objects.
      * auto.
      * exists []. by rewrite app_nil_r.
      * rewrite <- !app_assoc. by eexists.
    + split; [|reflexivity]. unfold only_grows. cbn. split_and!.
      * intros b' n' Hsome. by apply put_keeps_objects.
      * intros name Hclean Hname. unfold marked at 1. cbn.
        apply clean_name_stays; [done|]. by apply elem_of_union_l.
      * exists []. by rewrite app_nil_r.
      * rewrite <- !app_assoc. by eexists.
  - intros req w resp w' Hrun.
    destruct (enqueue_tasks_inv req w resp w' Hrun)
      as [(e & _ & _ & ->)
         | (b & p & files & _ & _ & _ & _ & Hq & Hs & Ht & He)].
    + apply only_grows_refl.
    + unfold only_grows, marked. rewrite Hs, Ht, Hq, He.
      split_and!; auto; by eexists.
Qed.

(** X15. Processing is idempotent on storage and tracker. When a run has
    reported the file as processed, its output object is not the input
    object itself, and the names read from the tracker before and the
    file name are clean, the same request run again succeeds again and
    leaves storage, tracker and queue exactly as the first run left
    them. *)
Theorem reprocessing_changes_nothing (fuel : nat) (req : ProcessRequest)
    (w w1 : World) (b p ob op : string) :
  bucket_and_prefix (p_input_bucket req) = Ok (b, p) ->
  bucket_and_prefix (p_output_bucket req) = Ok (ob, op) ->
  (b, p_file_path req) <> (ob, output_name op req) ->
  set_Forall (fun name => clean_name name = true)
    (marked w ∪ {[ p_file_path req ]}) ->
  process_single fuel req w
  = Some (mkResponse 200 (Procesado (p_file_path req)), w1) ->
  exists w2,
    process_single fuel req w1
    = Some (mkResponse 200 (Procesado (p_file_path req)), w2)
    /\ storage w2 = storage w1
    /\ tracker w2 = tracker w1
    /\ queue w2 = queue w1.
Proof.
  intros Hin Hout Hne Hall Hrun. apply process_single_procesado_inv in Hrun.
  destruct (process_single_done_inv fuel req w _ _ Hrun)
    as (b' & p' & ob' & op' & lf & image & tiles & doc
        & Hin' & Hout' & Hget & Himg & Hsplit & Hpdf & Hname & Hread & Hwrite
        & _ & ->).
  assert (b' = b /\ p' = p) as [-> ->] by (split; congruence).
  assert (ob' = ob /\ op' = op) as [-> ->] by (split; congruence).
  set (all_files := marked w ∪ {[ p_file_path req ]}) in *.
  assert (Hback : tracker_names (tracker_text all_files) = all_files).
  { unfold tracker_names, tracker_text.
    rewrite lines_of_clean_text by by apply sorted_clean.
    apply sorted_elements. }
  eexists. split.
  - unfold process_single, process_single_try.
    rewrite Hin, Hout. unfold download.
    rewrite (proj1 (names_a_file_spec _) Hname).
    cbn [storage write_tracker log upload].
    rewrite (get_put_other _ _ _ _ _ _ Hne), Hget, Himg, Hsplit.
    cbn [mbind result_bind]. rewrite Hpdf.
    unfold load_tracker, update_tracker.
    cbn [tracker storage queue events write_tracker log upload read_error
         write_error].
    rewrite Hread.
    cbn [tracker storage queue events write_tracker log upload read_error
         write_error].
    rewrite Hwrite. reflexivity.
  - cbn. split_and!; auto.
    + apply put_put_same.
    + unfold marked. cbn. rewrite Hback. f_equal. f_equal. f_equal.
      subst all_files. by rewrite <- (assoc_L (∪)), (idemp_L (∪)).
Qed.

End Invariants.

(** ** Outputs as inputs, and the pages of a PDF *)

Section Feedback.

Context `{Platform}.

(** X18. Outputs feed back into the input. When a run has reported a
    file as processed, its output bucket is the bucket that is listed, the
    output name starts with the listing prefix and the tracker does not
    hold that name, the uploaded document is among the names the next
    [enqueue_tasks] call may queue. *)
Theorem uploaded_document_is_a_candidate (fuel : nat) (req : ProcessRequest)
    (w w1 : World) (ob op p : string) :
  bucket_and_prefix (p_output_bucket req) = Ok (ob, op) ->
  process_single fuel req w
  = Some (mkResponse 200 (Procesado (p_file_path req)), w1) ->
  String.prefix p (output_name op req) = true ->
  output_name op req ∉ marked w1 ->
  In (output_name op req) (candidates ob p w1).
Proof.
  intros Hout Hrun Hprefix Hnew. apply process_single_procesado_inv in Hrun.
  destruct (process_single_done_inv fuel req w _ _ Hrun)
    as (b & p' & ob' & op' & lf & image & tiles & doc
        & _ & Hout' & _ & _ & _ & _ & _ & _ & _ & _ & Hw1).
  assert (ob' = ob /\ op' = op) as [-> ->] by (split; congruence).
  assert (Hget : get_object ob (output_name op req) (storage w1) = Some doc).
  { subst w1. cbn. apply get_put_same. }
  apply get_object_In in Hget.
  unfold candidates. apply filter_In. split.
  - apply in_map_iff. exists (ob, output_name op req, doc).
    split; [reflexivity|]. apply filter_In. split; [exact Hget|].
    cbn. by rewrite String.eqb_refl, Hprefix.
  - rewrite output_name_no_trailing_slash.
    apply andb_true_iff. split; [|reflexivity].
    by apply negb_true_iff, bool_decide_eq_false.
Qed.

(** X19. Of a PDF only the first page counts. Two local files that are
    PDFs with the same first page give the same image for the tiler, or
    the same exception or skip, whatever their other pages, their byte
    sizes and the extension dispatched on. *)
Theorem later_pdf_pages_are_ignored (fuel : nat) (ext : string)
    (size1 size2 : Z) (page : Image) (rest1 rest2 : list Image) :
  image_for_tiling fuel ext (mkFile size1 (Pdf (page :: rest1)))
  = image_for_tiling fuel ext (mkFile size2 (Pdf (page :: rest2)))
  /\ image_for_tiling fuel ".pdf" (mkFile size1 (Pdf (page :: rest1)))
     = Some (Ok (Some (save_jpeg page 75 None false))).
Proof.
  split; [|reflexivity].
  unfold image_for_tiling.
  destruct (String.eqb ext ".pdf"); [reflexivity|].
  destruct (mem ext raster_extensions); reflexivity.
Qed.

End Feedback.
(** ** Runs on sample worlds *)

(** The names read from the tracker text written for a set of clean
    names. *)
Lemma marked_tracker_of (name : string) (f : File) (names : gset string) :
  set_Forall (fun name => clean_name name = true) names ->
  marked (one_object_world name f (Some names)) = names.
Proof.
  intros Hall. unfold marked. cbn. unfold tracker_names, tracker_text.
  rewrite lines_of_clean_text by by apply sorted_clean.
  apply sorted_elements.
Qed.

(** A small PNG, with another name already marked. *)
Lemma successful_run_effects_witness :
  let req := request_for "maps/a.png" in
  let w := one_object_world "maps/a.png" (raster_file 500 40 30)
             (Some {[ "maps/old.png" ]}) in
  exists w' doc pages,
    process_single (H := area_platform) 12 req w
    = Some (mkResponse 200 (Procesado "maps/a.png"), w')
    /\ get_object "out-bucket" "tiles/a_tiles.pdf" (storage w') = Some doc
    /\ file_body doc = Pdf pages
    /\ get_object "in-bucket" "maps/a.png" (storage w')
       = Some (raster_file 500 40 30)
    /\ tracker_blob (tracker w')
       = Some ("maps/a.png" ++ newline ++ "maps/old.png")
    /\ marked w' = {[ "maps/old.png" ]} ∪ {[ "maps/a.png" ]}.
Proof.
  intros req w.
  assert (Hw : marked w = {[ "maps/old.png" ]}).
  { apply marked_tracker_of. by intros name ->%elem_of_singleton. }
  destruct (process_single (H := area_platform) 12 req w)
    as [[resp w']|] eqn:Hrun; [|vm_compute in Hrun; discriminate].
  assert (Hresp : resp = mkResponse 200 (Procesado "maps/a.png")).
  { vm_compute in Hrun. by injection Hrun as <- _. }
  subst resp.
  destruct (successful_run_effects (H := area_platform) 12 req w w' Hrun)
    as (ob & op & doc & pages & Hout & Hget & Hbody & Hother & Htext & _
        & Hall & _).
  vm_compute in Hout. injection Hout as <- <-.
  exists w', doc, pages.
  split_and!; [reflexivity | exact Hget | exact Hbody | | |].
  - rewrite (Hother "in-bucket" "maps/a.png"); [reflexivity | discriminate].
  - rewrite Htext, Hw. vm_compute. reflexivity.
  - rewrite <- Hw. apply Hall. rewrite Hw.
    intros name [->%elem_of_singleton | ->%elem_of_singleton]%elem_of_union;
      reflexivity.
Defined.

(** A request for zero parts ends in the division error. *)
Lemma zero_parts_never_succeed_witness :
  let req := mkProcessRequest "gs://in-bucket/maps" "gs://out-bucket/tiles"
               "maps/a.png" (Some 0) in
  let w := one_object_world "maps/a.png" (raster_file 500 40 30) None in
  exists w',
    process_single (H := area_platform) 12 req w
    = Some (mkResponse 500 (Error ZeroDivisionError), w')
    /\ storage w' = storage w
    /\ tracker w' = tracker w.
Proof.
  intros req w.
  destruct (process_single (H := area_platform) 12 req w)
    as [[resp w']|] eqn:Hrun; [|vm_compute in Hrun; discriminate].
  destruct (zero_parts_never_succeed (H := area_platform) 12 req w resp w'
              eq_refl Hrun) as (_ & Hs & Ht).
  assert (Hresp : resp = mkResponse 500 (Error ZeroDivisionError)).
  { vm_compute in Hrun. by injection Hrun as <- _. }
  subst resp. exists w'. by split_and!.
Defined.


(** Five objects, of which two are candidates; [max_files] is 1. *)
Lemma enqueue_selects_leading_candidates_witness :
  let f := raster_file 500 40 30 in
  let w := {| storage := [("in-bucket", "maps/a.png", f);
                          ("in-bucket", "maps/b.tif", f);
                          ("in-bucket", "maps/", f);
                          ("in-bucket", "other/c.png", f);
                          ("in-bucket", "maps/d.pdf", f)];
              tracker := tracker_of (Some {[ "maps/b.tif" ]});
              queue := []; events := [] |} in
  let req := mkEnqueueRequest "gs://in-bucket/maps" "gs://out-bucket/tiles"
               (Some 1) None in
  candidates "in-bucket" "maps" w = ["maps/a.png"; "maps/d.pdf"]
  /\ exists resp w',
       enqueue_tasks req w = (resp, w')
       /\ queue w' = [mkTask "gs://in-bucket/maps" "gs://out-bucket/tiles"
                        "maps/a.png" 5]
       /\ resp = mkResponse 200 (TareasEnviadas 1).
Proof.
  intros f w req. split; [vm_compute; reflexivity|].
  destruct (enqueue_tasks req w) as [resp w'] eqn:Hrun.
  pose proof (enqueue_selects_leading_candidates req w resp w'
                "in-bucket" "maps" eq_refl Hrun) as Hsel.
  cbv zeta in Hsel. cbn [read_error tracker tracker_of] in Hsel.
  destruct Hsel as (Hq & Hresp & _).
  exists resp, w'. split; [reflexivity|].
  split; [rewrite Hq | rewrite Hresp]; vm_compute; reflexivity.
Defined.

(** After the run, the next listing queues nothing. *)
Lemma processed_file_is_not_queued_again_witness :
  let preq := request_for "maps/a.png" in
  let w := one_object_world "maps/a.png" (raster_file 500 40 30) None in
  let ereq := mkEnqueueRequest "gs://in-bucket/maps" "gs://out-bucket/tiles"
                None None in
  exists w1 resp w3 tasks,
    process_single (H := area_platform) 12 preq w
    = Some (mkResponse 200 (Procesado "maps/a.png"), w1)
    /\ enqueue_tasks ereq w1 = (resp, w3)
    /\ queue w3 = (queue w1 ++ tasks)%list
    /\ Forall (fun t => task_file_path t <> "maps/a.png") tasks.
Proof.
  intros preq w ereq.
  destruct (process_single (H := area_platform) 12 preq w)
    as [[r w1]|] eqn:Hrun; [|vm_compute in Hrun; discriminate].
  assert (Hr : r = mkResponse 200 (Procesado "maps/a.png")).
  { vm_compute in Hrun. by injection Hrun as <- _. }
  subst r.
  destruct (enqueue_tasks ereq w1) as [resp w3] eqn:Henq.
  destruct (processed_file_is_not_queued_again (H := area_platform) 12 preq
              w w1 w1 ereq resp w3 Hrun eq_refl (reflexivity _) Henq)
    as (tasks & Hq & Hall).
  exists w1, resp, w3, tasks. by split_and!.
Defined.

(** A successful run only adds. *)
Lemma handlers_only_add_witness :
  let req := request_for "maps/a.png" in
  let w := one_object_world "maps/a.png" (raster_file 500 40 30) None in
  exists resp w',
    process_single (H := area_platform) 12 req w = Some (resp, w')
    /\ only_grows w w' /\ queue w' = queue w.
Proof.
  intros req w.
  destruct (process_single (H := area_platform) 12 req w)
    as [[resp w']|] eqn:Hrun; [|vm_compute in Hrun; discriminate].
  exists resp, w'. split; [reflexivity|].
  exact (proj1 (handlers_only_add (H := area_platform) 12) req w resp w' Hrun).
Defined.

(** The same request, run twice. *)
Lemma reprocessing_changes_nothing_witness :
  let req := request_for "maps/a.png" in
  let w := one_object_world "maps/a.png" (raster_file 500 40 30) None in
  exists w1 w2,
    process_single (H := area_platform) 12 req w
    = Some (mkResponse 200 (Procesado "maps/a.png"), w1)
    /\ process_single (H := area_platform) 12 req w1
       = Some (mkResponse 200 (Procesado "maps/a.png"), w2)
    /\ storage w2 = storage w1
    /\ tracker w2 = tracker w1
    /\ queue w2 = queue w1.
Proof.
  intros req w.
  destruct (process_single (H := area_platform) 12 req w)
    as [[r w1]|] eqn:Hrun; [|vm_compute in Hrun; discriminate].
  assert (Hr : r = mkResponse 200 (Procesado "maps/a.png")).
  { vm_compute in Hrun. by injection Hrun as <- _. }
  subst r.
  destruct (reprocessing_changes_nothing (H := area_platform) 12 req w w1
              "in-bucket" "maps" "out-bucket" "tiles")
    as (w2 & Hagain & Hs & Ht & Hq);
    [reflexivity | reflexivity | discriminate | | exact Hrun |].
  { intros name [Hin | ->%elem_of_singleton]%elem_of_union;
      [by apply elem_of_empty in Hin | reflexivity]. }
  exists w1, w2. by split_and!.
Defined.

(** Output written under the listed prefix of the same bucket. *)
Lemma uploaded_document_is_a_candidate_witness :
  let req := mkProcessRequest "gs://in-bucket/maps" "gs://in-bucket/maps/tiles"
               "maps/a.png" None in
  let w := one_object_world "maps/a.png" (raster_file 500 40 30) None in
  exists w1,
    process_single (H := area_platform) 12 req w
    = Some (mkResponse 200 (Procesado "maps/a.png"), w1)
    /\ In "maps/tiles/a_tiles.pdf" (candidates "in-bucket" "maps" w1).
Proof.
  intros req w.
  destruct (process_single (H := area_platform) 12 req w)
    as [[r w1]|] eqn:Hrun; [|vm_compute in Hrun; discriminate].
  assert (Hr : r = mkResponse 200 (Procesado "maps/a.png")).
  { vm_compute in Hrun. by injection Hrun as <- _. }
  subst r.
  exists w1. split; [reflexivity|].
  apply (uploaded_document_is_a_candidate (H := area_platform) 12 req w w1
           "in-bucket" "maps/tiles" "maps");
    [reflexivity | exact Hrun | reflexivity |].
  vm_compute in Hrun. injection Hrun as <-.
  refine (bool_decide_unpack _ _). vm_compute. exact I.
Defined.
